(** * CatharsisXAgentDMs: the rate-limited direct-message scheduler

    A shallow embedding of the scheduling core of the repository:

    - [JS], [Fs]   : the few JavaScript and file-system operations used
    - [RateLimit]  : plugins/rateLimitHandler.ts (class RateLimitHandler)
    - [DmPlugin]   : plugins/dmPlugin/dmPlugin.ts (find_target_user, send_dm)
    - [DmManager]  : plugins/dmPlugin/dmManager.ts (sent-DM ledger, findAndSendDM)
    - [Agent]      : the entry point (DM_INTERVAL, attemptDM, HTTP server,
                     runScheduler, main)
    - [EventLoop]  : timer ticks, requests and network answers interleaved
    - [Spec]       : the quota check, the ledger write and the manual
                     trigger as the design document words them, kept apart
                     from the code so the two can be compared
    - [Calls], [View], [Scenario] : call sequences, the code's state read as
                     the design's QuotaState, and concrete inputs.

    Conventions.  Module-level [let] variables and private class fields
    become record fields threaded through the functions.  Every read of the
    clock ([Date.now()], [new Date()]) and every answer of an outside
    service (OpenAI, Twitter, [Math.random]) is an explicit argument.
    JavaScript numbers that hold epoch times and counters are [Z].  A
    function that can [throw] returns a [Completion]; a [try]/[catch] is
    a [match] on it.  Functions that only log return which branch they
    took. *)

From Stdlib Require Import ZArith String List Bool Lia.
From stdpp Require Import base option strings gmap.

Local Open Scope string_scope.
Local Open Scope Z_scope.

(** ** JavaScript helpers *)

Module JS.

Inductive Exn : Type :=
| RangeError    (* Date.prototype.toISOString on an invalid date *)
| TypeError     (* property read on undefined *)
| IOError       (* fs.readFileSync / fs.writeFileSync / fs.mkdirSync *)
| SyntaxError   (* JSON.parse *)
| ApiError.     (* rejected promise of an HTTP client *)

Inductive Completion (A : Type) : Type :=
| Returned (a : A)
| Threw (e : Exn).
Arguments Returned {A} a.
Arguments Threw {A} e.

(** [x || 0] for an optional number: [undefined] and [0] both give [0]. *)
Definition or0 (x : option Z) : Z := default 0 x.

(** [x || ''] for an optional string. *)
Definition orEmpty (x : option string) : string := default "" x.

(** [Math.floor(a / b)] for integers [a] and a positive integer [b]. *)
Definition floorDiv (a b : Z) : Z := a / b.

(** [Math.round(a / b)] for integers [a] and positive [b]: halves go up. *)
Definition roundDiv (a b : Z) : Z := (2 * a + b) / (2 * b).

(** A [Date] built from [ms] is valid when [|ms| <= 8.64e15];
    [toISOString] throws a RangeError on the others. *)
Definition validDate (ms : Z) : bool := Z.abs ms <=? 8640000000000000.

(** A text is held as the bytes of its UTF-8 encoding.  [utf16Length] is
    its [.length], the number of UTF-16 code units: one for every
    character of one, two or three bytes, two for a character of four
    bytes (a surrogate pair), none for a continuation byte. *)
Definition utf16Units (c : Ascii.ascii) : nat :=
  let n := Ascii.nat_of_ascii c in
  if (n <? 128)%nat then 1%nat
  else if (n <? 192)%nat then 0%nat
  else if (n <? 240)%nat then 1%nat
  else 2%nat.

Fixpoint utf16Length (s : string) : nat :=
  match s with
  | EmptyString => 0%nat
  | String c rest => (utf16Units c + utf16Length rest)%nat
  end.

(** [hay.includes(needle)] *)
Definition includes (needle hay : string) : bool :=
  match String.index 0 needle hay with
  | Some _ => true
  | None => false
  end.

(** Property names every plain object inherits from [Object.prototype]:
    [obj[k]] is truthy for them even when [obj] has no own property [k]. *)
Definition objectPrototypeKeys : list string :=
  [ "constructor"; "hasOwnProperty"; "isPrototypeOf"; "propertyIsEnumerable";
    "toLocaleString"; "toString"; "valueOf"; "__proto__";
    "__defineGetter__"; "__defineSetter__"; "__lookupGetter__";
    "__lookupSetter__" ].

Definition inherited (k : string) : bool :=
  bool_decide (k ∈ objectPrototypeKeys).

(** Truthiness of [obj[k]] for an object of numbers: an own property is
    truthy unless it is [0]; otherwise the prototype chain answers. *)
Definition truthyAt (obj : gmap string Z) (k : string) : bool :=
  match obj !! k with
  | Some v => negb (v =? 0)
  | None => inherited k
  end.

End JS.
Export JS.

(** ** plugins/rateLimitHandler.ts *)

Module RateLimit.

(** The private fields of [class RateLimitHandler]. *)
Record Handler : Type := mkHandler {
  monthlyCapExceeded   : bool;
  monthlyCapResetTime  : Z;        (* epoch seconds *)
  dailyReadAttempts    : Z;
  lastResetDate        : string;   (* YYYY-MM-DD, '' before the first reset *)
  maxDailyReadAttempts : Z
}.

(** Field initialisers of the class, before the constructor body runs. *)
Definition fresh : Handler :=
  {| monthlyCapExceeded := false; monthlyCapResetTime := 0;
     dailyReadAttempts := 0; lastResetDate := "";
     maxDailyReadAttempts := 50 |}.

(** [today] is [new Date().toISOString().split('T')[0]]. *)
Definition resetDailyCounterIfNeeded (today : string) (h : Handler) : Handler :=
  if bool_decide (lastResetDate h ≠ today) then
    {| monthlyCapExceeded := monthlyCapExceeded h;
       monthlyCapResetTime := monthlyCapResetTime h;
       dailyReadAttempts := 0;
       lastResetDate := today;
       maxDailyReadAttempts := maxDailyReadAttempts h |}
  else h.

(** [getInstance()] on first use: the constructor. *)
Definition construct (today : string) : Handler :=
  resetDailyCounterIfNeeded today fresh.

(** The shape of the error object the Twitter client rejects with, as far
    as the handler reads it. *)
Record ErrorData : Type := mkErrorData {
  title  : option string;
  detail : option string;
  type   : option string
}.

Record RateLimitInfo : Type := mkRateLimitInfo {
  reset : option Z                 (* epoch seconds *)
}.

Record TwitterError : Type := mkTwitterError {
  code      : option Z;
  data      : option ErrorData;
  rateLimit : option RateLimitInfo
}.

Record Parsed : Type := mkParsed {
  isMonthlyCapExceeded : bool;
  resetTime            : option Z
}.

Definition parseTwitterError (error : TwitterError) : Parsed :=
  match code error, data error with
  | Some 429, Some d =>
      if bool_decide (title d = Some "UsageCapExceeded")
         && from_option (includes "Monthly product cap") false (detail d)
         && bool_decide (type d = Some "https://api.twitter.com/2/problems/usage-capped")
      then {| isMonthlyCapExceeded := true;
              resetTime := rateLimit error ≫= reset |}
      else {| isMonthlyCapExceeded := false; resetTime := None |}
  | _, _ => {| isMonthlyCapExceeded := false; resetTime := None |}
  end.

(** The fields are assigned before the log line that formats the reset
    date, so a reset time outside the range of [Date] still leaves the
    flag set when [toISOString] throws. *)
Definition handleTwitterError (error : TwitterError) (h : Handler)
  : Completion unit * Handler :=
  let p := parseTwitterError error in
  if isMonthlyCapExceeded p then
    let h' := {| monthlyCapExceeded := true;
                 monthlyCapResetTime := or0 (resetTime p);
                 dailyReadAttempts := dailyReadAttempts h;
                 lastResetDate := lastResetDate h;
                 maxDailyReadAttempts := maxDailyReadAttempts h |} in
    if validDate (monthlyCapResetTime h' * 1000)
    then (Returned tt, h')
    else (Threw RangeError, h')
  else (Returned tt, h).

(** Which [return] of [canMakeReadRequest] was taken; the function itself
    returns the boolean [allowed]. *)
Inductive Verdict : Type :=
| MonthlyCapDenied     (* "Monthly cap exceeded. Cannot make read requests until ..." *)
| DailyLimitDenied     (* "Daily read limit reached" *)
| ReadAllowed.

Definition allowed (v : Verdict) : bool :=
  match v with ReadAllowed => true | _ => false end.

(** [today] is the date read by [resetDailyCounterIfNeeded], [nowMs] the
    later [Date.now()]. *)
Definition canMakeReadRequest (today : string) (nowMs : Z) (h : Handler)
  : Completion Verdict * Handler :=
  let h1 := resetDailyCounterIfNeeded today h in
  let daily (g : Handler) :=
    if maxDailyReadAttempts g <=? dailyReadAttempts g
    then (Returned DailyLimitDenied, g)
    else (Returned ReadAllowed, g) in
  if monthlyCapExceeded h1 then
    let currentTime := floorDiv nowMs 1000 in
    if currentTime <? monthlyCapResetTime h1 then
      if validDate (monthlyCapResetTime h1 * 1000)
      then (Returned MonthlyCapDenied, h1)
      else (Threw RangeError, h1)
    else
      daily {| monthlyCapExceeded := false;
               monthlyCapResetTime := 0;
               dailyReadAttempts := dailyReadAttempts h1;
               lastResetDate := lastResetDate h1;
               maxDailyReadAttempts := maxDailyReadAttempts h1 |}
  else daily h1.

Definition incrementReadAttempts (h : Handler) : Handler :=
  {| monthlyCapExceeded := monthlyCapExceeded h;
     monthlyCapResetTime := monthlyCapResetTime h;
     dailyReadAttempts := dailyReadAttempts h + 1;
     lastResetDate := lastResetDate h;
     maxDailyReadAttempts := maxDailyReadAttempts h |}.

Definition setMaxDailyReadAttempts (max : Z) (h : Handler) : Handler :=
  {| monthlyCapExceeded := monthlyCapExceeded h;
     monthlyCapResetTime := monthlyCapResetTime h;
     dailyReadAttempts := dailyReadAttempts h;
     lastResetDate := lastResetDate h;
     maxDailyReadAttempts := max |}.

End RateLimit.

(** ** The two files under /app/data *)

Module Fs.

(** What [existsSync] / [readFileSync] / [JSON.parse] make of a path:
    [Missing] when [existsSync] is false, [Corrupt] when the file is there
    but reading or parsing it throws, [Holds a] when it parses to [a].
    The variables are typed as the TypeScript declares them, so a file
    that parses to JSON of another shape has no counterpart here. *)
Inductive File (A : Type) : Type :=
| Missing
| Corrupt
| Holds (a : A).
Arguments Missing {A}.
Arguments Corrupt {A}.
Arguments Holds {A} a.

(** The object in dm_state.json; a hand-edited file may lack fields. *)
Record StateJson : Type := mkStateJson {
  j_lastDMTime    : option Z;
  j_dailyDMs      : option Z;
  j_lastResetDate : option string
}.

Record Disk : Type := mkDisk {
  dirExists : bool;                       (* /app/data *)
  writable  : bool;                       (* mkdirSync / writeFileSync succeed *)
  stateFile : File StateJson;             (* /app/data/dm_state.json *)
  sentFile  : File (gmap string Z)        (* /app/data/sent_dms.json *)
}.

(** [fs.mkdirSync(dir, { recursive: true })] *)
Definition mkdirSync (d : Disk) : Completion unit * Disk :=
  if writable d
  then (Returned tt, {| dirExists := true; writable := writable d;
                        stateFile := stateFile d; sentFile := sentFile d |})
  else (Threw IOError, d).

Definition writeState (j : StateJson) (d : Disk) : Completion unit * Disk :=
  if writable d && dirExists d
  then (Returned tt, {| dirExists := dirExists d; writable := writable d;
                        stateFile := Holds j; sentFile := sentFile d |})
  else (Threw IOError, d).

Definition writeSent (m : gmap string Z) (d : Disk) : Completion unit * Disk :=
  if writable d && dirExists d
  then (Returned tt, {| dirExists := dirExists d; writable := writable d;
                        stateFile := stateFile d; sentFile := Holds m |})
  else (Threw IOError, d).

(** [fs.readFileSync] followed by [JSON.parse] on a path that exists. *)
Definition readJson {A} (f : File A) : Completion A :=
  match f with
  | Holds a => Returned a
  | Corrupt => Threw SyntaxError
  | Missing => Threw IOError
  end.

Definition existsSync {A} (f : File A) : bool :=
  match f with Missing => false | _ => true end.

End Fs.
Export Fs.

(** ** plugins/dmPlugin/dmPlugin.ts *)

Module DmPlugin.

Record TargetUser : Type := mkTargetUser {
  userId   : string;
  username : string;
  context  : option string
}.

(** What [JSON.parse(findResult.feedback)] yields on success. *)
Record UserInfo : Type := mkUserInfo {
  u_userId   : string;
  u_username : string;
  u_context  : string
}.

Inductive Status : Type := Done | Failed.

(** [ExecutableGameFunctionResponse]: the feedback is either a plain
    message or the JSON text of a [UserInfo]. *)
Inductive Feedback : Type :=
| Message (s : string)
| UserJson (u : UserInfo).

Record Response : Type := mkResponse {
  status   : Status;
  feedback : Feedback
}.

(** [find_target_user].  [targets] is the first existing file among
    [possiblePaths] ([Missing] when none exists), already reduced to its
    [all] array; [pick] is [Math.floor(Math.random() * users.length)]. *)
Definition find_target_user (targets : File (list TargetUser)) (pick : nat)
  : Response :=
  let body : Completion Response :=
    match (if existsSync targets then readJson targets else Returned []) with
    | Threw e => Threw e
    | Returned users =>
        if bool_decide (users = [])
        then Returned {| status := Failed;
                         feedback := Message "No target users found." |}
        else match users !! pick with
             | None => Threw TypeError
             | Some randomUser =>
                 Returned
                   {| status := Done;
                      feedback := UserJson
                        {| u_userId := userId randomUser;
                           u_username := username randomUser;
                           u_context := default "potential connection"
                                          (match context randomUser with
                                           | Some "" => None
                                           | c => c
                                           end) |} |}
             end
    end in
  match body with
  | Returned r => r
  | Threw _ => {| status := Failed; feedback := Message "Error" |}
  end.

(** The answer of [twitterClient.v2.sendDmToParticipant]. *)
Inductive DmResult : Type :=
| DmData                                   (* resolved, [data] present *)
| DmNoData                                 (* resolved without [data] *)
| DmRejected (e : RateLimit.TwitterError). (* the promise rejected *)

(** [send_dm].  [message_text.length] is [utf16Length]. *)
Definition send_dm (user_id message_text : string) (dm : DmResult) : Response :=
  if bool_decide (user_id = "")
  then {| status := Failed; feedback := Message "User ID is required" |}
  else if bool_decide (message_text = "")
  then {| status := Failed; feedback := Message "Message text is required" |}
  else if (Z.of_nat (utf16Length message_text) <? 10)
          || (10000 <? Z.of_nat (utf16Length message_text))
  then {| status := Failed;
          feedback := Message "Message must be between 10 and 10,000 characters" |}
  else match dm with
       | DmData => {| status := Done; feedback := Message "DM sent successfully" |}
       | DmNoData => {| status := Failed; feedback := Message "Failed to send DM" |}
       | DmRejected _ => {| status := Failed; feedback := Message "Error sending DM" |}
       end.

End DmPlugin.

(** ** plugins/dmPlugin/dmManager.ts *)

Module DmManager.
Import DmPlugin.

(** [sentDMs] is a [gmap string Z]: recipient id to epoch milliseconds. *)

Definition saveSentDMs (sentDMs : gmap string Z) (d : Disk) : Disk :=
  snd (writeSent sentDMs d).

Definition ensureDirExists (d : Disk) : Completion unit * Disk :=
  if dirExists d then (Returned tt, d) else mkdirSync d.

Definition loadSentDMs (sentDMs : gmap string Z) (d : Disk)
  : gmap string Z * Disk :=
  let body : Completion (gmap string Z) * Disk :=
    if existsSync (sentFile d) then
      match readJson (sentFile d) with
      | Returned m => (Returned m, d)
      | Threw e => (Threw e, d)
      end
    else
      match ensureDirExists d with
      | (Returned _, d1) => (Returned sentDMs, saveSentDMs sentDMs d1)
      | (Threw e, d1) => (Threw e, d1)
      end in
  match body with
  | (Returned m, d') => (m, d')
  | (Threw _, d') => (∅, d')
  end.

(** The answer of [openai.chat.completions.create]: a rejection (or a
    response without a first choice, which throws just the same), or the
    [content] of the first choice after [trim()] ([None] for [null]). *)
Inductive GenResult : Type :=
| GenRejected
| GenContent (content : option string).

(** The ways [findAndSendDM] ends, one per [return] or [catch]. *)
Inductive Exit : Type :=
| FindFailed                      (* 'Failed to find target user' *)
| AlreadySent (id : string)       (* 'Already sent DM to user ..., skipping' *)
| InvalidContent                  (* 'Invalid DM content, skipping' *)
| SendFailed                      (* 'Failed to send DM' *)
| GenError                        (* 'Error generating or sending DM' *)
| ProcessError                    (* 'Error in find and send DM process' *)
| Sent (id : string).             (* 'DM sent successfully' *)

(** First part of [findAndSendDM], up to the OpenAI call: either the
    function is over, or it waits for the network with a recipient. *)
Definition findAndSendDM_begin (targets : File (list TargetUser)) (pick : nat)
    (sentDMs : gmap string Z) : Exit + UserInfo :=
  let findResult := find_target_user targets pick in
  match status findResult, feedback findResult with
  | Done, UserJson userInfo =>
      if truthyAt sentDMs (u_userId userInfo)
      then inl (AlreadySent (u_userId userInfo))
      else inr userInfo
  | Done, Message _ => inl ProcessError   (* JSON.parse of a non-JSON feedback *)
  | Failed, _ => inl FindFailed
  end.

(** Second part: content check, send, ledger write.  [sentAt] is the
    [Date.now()] stored in the ledger. *)
Definition findAndSendDM_resume (gen : GenResult) (dm : DmResult) (sentAt : Z)
    (userInfo : UserInfo) (sentDMs : gmap string Z) (d : Disk)
  : Exit * (gmap string Z * Disk) :=
  match gen with
  | GenRejected => (GenError, (sentDMs, d))
  | GenContent content =>
      let dmText := orEmpty content in
      if Z.of_nat (utf16Length dmText) <? 10
      then (InvalidContent, (sentDMs, d))
      else
        let sendResult := send_dm (u_userId userInfo) dmText dm in
        match status sendResult with
        | Failed => (SendFailed, (sentDMs, d))
        | Done =>
            let sentDMs' := <[u_userId userInfo := sentAt]> sentDMs in
            (Sent (u_userId userInfo), (sentDMs', saveSentDMs sentDMs' d))
        end
  end.

Definition findAndSendDM (targets : File (list TargetUser)) (pick : nat)
    (gen : GenResult) (dm : DmResult) (sentAt : Z)
    (sentDMs : gmap string Z) (d : Disk)
  : Exit * (gmap string Z * Disk) :=
  match findAndSendDM_begin targets pick sentDMs with
  | inl e => (e, (sentDMs, d))
  | inr userInfo => findAndSendDM_resume gen dm sentAt userInfo sentDMs d
  end.

(** [startDMCampaign(0)]: reload the ledger, then one [findAndSendDM]. *)
Definition startDMCampaign (targets : File (list TargetUser)) (pick : nat)
    (gen : GenResult) (dm : DmResult) (sentAt : Z)
    (sentDMs : gmap string Z) (d : Disk)
  : Exit * (gmap string Z * Disk) :=
  let '(loaded, d1) := loadSentDMs sentDMs d in
  findAndSendDM targets pick gen dm sentAt loaded d1.

End DmManager.

(** ** The entry point: state file, attemptDM, HTTP server, scheduler *)

Module Agent.
Import DmPlugin DmManager.

Definition DMS_PER_DAY_TARGET : Z := 30.
Definition DM_INTERVAL : Z := 5 * 60 * 1000.

(** The interval the comment on [DM_INTERVAL] announces: 24 minutes. *)
Definition DM_INTERVAL_documented : Z := 24 * 60 * 1000.

(** Everything mutable the process holds: the three module variables of
    the entry point, the ledger of dmManager, the [RateLimitHandler]
    singleton ([None] until [getInstance] is first called) and the disk. *)
Record System : Type := mkSystem {
  lastDMTime    : Z;
  dailyDMs      : Z;
  lastResetDate : string;
  sentDMs       : gmap string Z;
  rateLimiter   : option RateLimit.Handler;
  disk          : Disk
}.

Definition boot (d : Disk) : System :=
  {| lastDMTime := 0; dailyDMs := 0; lastResetDate := "";
     sentDMs := ∅; rateLimiter := None; disk := d |}.

Definition withQuota (t : Z) (n : Z) (r : string) (s : System) : System :=
  {| lastDMTime := t; dailyDMs := n; lastResetDate := r;
     sentDMs := sentDMs s; rateLimiter := rateLimiter s; disk := disk s |}.

Definition withDisk (d : Disk) (s : System) : System :=
  {| lastDMTime := lastDMTime s; dailyDMs := dailyDMs s;
     lastResetDate := lastResetDate s;
     sentDMs := sentDMs s; rateLimiter := rateLimiter s; disk := d |}.

Definition withLedger (m : gmap string Z) (d : Disk) (s : System) : System :=
  {| lastDMTime := lastDMTime s; dailyDMs := dailyDMs s;
     lastResetDate := lastResetDate s;
     sentDMs := m; rateLimiter := rateLimiter s; disk := d |}.

Definition saveState (s : System) : System :=
  let body : Completion unit * Disk :=
    match (if dirExists (disk s) then (Returned tt, disk s)
           else mkdirSync (disk s)) with
    | (Threw e, d) => (Threw e, d)
    | (Returned _, d) =>
        writeState {| j_lastDMTime := Some (lastDMTime s);
                      j_dailyDMs := Some (dailyDMs s);
                      j_lastResetDate := Some (lastResetDate s) |} d
    end in
  withDisk (snd body) s.

(** The [try] block of [loadState]; the three assignments come after the
    only statements that can throw. *)
Definition loadState_try (s : System) : Completion System :=
  if existsSync (stateFile (disk s)) then
    match readJson (stateFile (disk s)) with
    | Threw e => Threw e
    | Returned state =>
        Returned (withQuota (or0 (j_lastDMTime state))
                            (or0 (j_dailyDMs state))
                            (orEmpty (j_lastResetDate state)) s)
    end
  else Returned s.

Definition loadState (s : System) : System :=
  match loadState_try s with
  | Returned s' => s'
  | Threw _ => s          (* 'Error loading state' is logged *)
  end.

Definition resetDailyCounterIfNeeded (today : string) (s : System) : System :=
  if bool_decide (lastResetDate s ≠ today)
  then saveState (withQuota (lastDMTime s) 0 today s)
  else s.

(** The two early [return]s of [attemptDM]. *)
Inductive GateExit : Type :=
| TooSoon (minutesRemaining : Z)   (* 'Next DM in ... minutes' *)
| TargetReached.                   (* 'Daily DM target reached' *)

Section QuotaGate.
Variables (interval target : Z).

(** The two [if]s that follow [resetDailyCounterIfNeeded()]. *)
Definition quotaGate (timeSinceLastDM count : Z) : option GateExit :=
  if timeSinceLastDM <? interval
  then Some (TooSoon (roundDiv (interval - timeSinceLastDM) 60000))
  else if target <=? count
  then Some TargetReached
  else None.
End QuotaGate.

(** What the outside world supplies while one timer tick or one HTTP
    request runs. *)
Record Env : Type := mkEnv {
  now     : Z;                        (* Date.now() on entry *)
  now2    : Z;                        (* second Date.now() of the status page *)
  today   : string;                   (* date read by resetDailyCounterIfNeeded *)
  targets : File (list TargetUser);   (* target_accounts.json *)
  pick    : nat;                      (* the random index *)
  gen     : GenResult;                (* OpenAI *)
  dm      : DmResult;                 (* Twitter *)
  sentAt  : Z;                        (* Date.now() written to the ledger *)
  doneAt  : Z                         (* Date.now() written to lastDMTime *)
}.

(** [attemptDM] down to the [try]: [None] when it goes on to send. *)
Definition attemptDM_gate (env : Env) (s : System) : option GateExit * System :=
  let timeSinceLastDM := now env - lastDMTime s in
  let s1 := resetDailyCounterIfNeeded (today env) s in
  (quotaGate DM_INTERVAL DMS_PER_DAY_TARGET timeSinceLastDM (dailyDMs s1), s1).

(** The statements after [await dmManager.startDMCampaign(0)]. *)
Definition recordDM (doneAt : Z) (s : System) : System :=
  saveState (withQuota doneAt (dailyDMs s + 1) (lastResetDate s) s).

(** The [try] block up to the first network call: [startDMCampaign(0)]
    reloads the ledger and picks a recipient.  When [findAndSendDM] is
    already over, the statements after the [await] run at once. *)
Definition attemptDM_try_begin (env : Env) (s : System)
  : (Exit + UserInfo) * System :=
  let '(loaded, d1) := loadSentDMs (sentDMs s) (disk s) in
  let s2 := withLedger loaded d1 s in
  match findAndSendDM_begin (targets env) (pick env) loaded with
  | inl e => (inl e, recordDM (doneAt env) s2)
  | inr u => (inr u, s2)
  end.

(** The rest of the [try] block, once the network has answered. *)
Definition attemptDM_resume (env : Env) (u : UserInfo) (s : System)
  : Exit * System :=
  let '(e, (m, d)) :=
    findAndSendDM_resume (gen env) (dm env) (sentAt env) u (sentDMs s) (disk s) in
  (e, recordDM (doneAt env) (withLedger m d s)).

(** The whole [try] block with nothing else running in between. *)
Definition attemptDM_try (env : Env) (s : System) : Exit * System :=
  match attemptDM_try_begin env s with
  | (inl e, s') => (e, s')
  | (inr u, s') => attemptDM_resume env u s'
  end.

(** How a whole [attemptDM] ended. *)
Inductive Outcome : Type :=
| Gate (g : GateExit)
| Ran (e : Exit).

(** [attemptDM] with nothing else running in between. *)
Definition attemptDM (env : Env) (s : System) : Outcome * System :=
  match attemptDM_gate env s with
  | (Some g, s1) => (Gate g, s1)
  | (None, s1) => let '(e, s') := attemptDM_try env s1 in (Ran e, s')
  end.

(** One run of [runScheduler] with nothing else in between: the attempt,
    then [setTimeout] for the next run. *)
Definition runScheduler (env : Env) (s : System) : System :=
  snd (attemptDM env s).

(** *** HTTP server *)

Inductive Body : Type :=
| StatusPage (dmsToday minutesSinceDM minutesUntilNext : Z)
| AttemptCompleted        (* 'DM attempt completed' *)
| CounterReset            (* 'Counter reset' *)
| NotFound.               (* 'Not found' *)

Record HttpResponse : Type := mkHttpResponse {
  statusCode : Z;
  body       : Body
}.

(** [now1], [now2]: the two [Date.now()] of the status page. *)
Definition statusPage (now1 now2 : Z) (s : System) : Body :=
  StatusPage (dailyDMs s)
             (roundDiv (now1 - lastDMTime s) 60000)
             (Z.max 0 (roundDiv (DM_INTERVAL - (now2 - lastDMTime s)) 60000)).

Definition handleReset (s : System) : HttpResponse * System :=
  ({| statusCode := 200; body := CounterReset |},
   saveState (withQuota (lastDMTime s) 0 (lastResetDate s) s)).

Definition handleSendDm (env : Env) (s : System) : HttpResponse * System :=
  ({| statusCode := 200; body := AttemptCompleted |}, snd (attemptDM env s)).

(** The request listener, for a request that runs alone. *)
Definition server (url : string) (env : Env) (s : System)
  : HttpResponse * System :=
  if bool_decide (url = "/")
  then ({| statusCode := 200; body := statusPage (now env) (now2 env) s |}, s)
  else if bool_decide (url = "/send-dm") then handleSendDm env s
  else if bool_decide (url = "/reset") then handleReset s
  else ({| statusCode := 404; body := NotFound |}, s).

(** *** Start-up *)

Definition initializeDMManager : Completion unit := Returned tt.

(** [main] up to the first [runScheduler()]: the state the scheduler
    starts from, or [None] when the process exits with code 1. *)
Definition main (d : Disk) : option System :=
  let s := loadState (boot d) in
  match initializeDMManager with
  | Returned _ => Some s
  | Threw _ => None
  end.

End Agent.

(** ** The event loop: timer ticks, HTTP requests and network answers

    JavaScript runs each callback to its next real wait.  [attemptDM]
    waits only inside [startDMCampaign], for OpenAI and then Twitter, and
    touches no shared variable between those two waits; so an attempt is
    two atomic pieces, [attemptDM_gate] with [attemptDM_try_begin], and
    later [attemptDM_resume]. *)

Module EventLoop.
Import DmPlugin DmManager Agent.

Inductive Origin : Type := Timer | Manual.

Definition isTimer (o : Origin) : bool :=
  match o with Timer => true | Manual => false end.

Record Sched : Type := mkSched {
  sys      : System;
  timerDue : bool;                       (* a run of runScheduler is scheduled *)
  inflight : list (Origin * UserInfo);   (* attempts waiting for the network *)
  ended    : list (Origin * Outcome)     (* how the attempts so far ended *)
}.

Inductive Event : Type :=
| TimerFires (env : Env)                 (* setTimeout callback: runScheduler *)
| Request (url : string) (env : Env)     (* the http.createServer listener *)
| NetworkAnswers (i : nat) (env : Env).  (* the waits of attempt [i] are over *)

(** Start an attempt on behalf of [o].  A timer-started attempt re-arms
    the timer only when it is over. *)
Definition launch (o : Origin) (env : Env) (st : Sched) : Sched :=
  let over (out : Outcome) (s : System) :=
    {| sys := s; timerDue := isTimer o || timerDue st;
       inflight := inflight st; ended := ended st ++ [(o, out)] |} in
  match attemptDM_gate env (sys st) with
  | (Some g, s1) => over (Gate g) s1
  | (None, s1) =>
      match attemptDM_try_begin env s1 with
      | (inl e, s2) => over (Ran e) s2
      | (inr u, s2) =>
          {| sys := s2;
             timerDue := negb (isTimer o) && timerDue st;
             inflight := inflight st ++ [(o, u)];
             ended := ended st |}
      end
  end.

(** [None]: the event cannot happen in this state. *)
Definition step (ev : Event) (st : Sched) : option Sched :=
  match ev with
  | TimerFires env =>
      if timerDue st
      then Some (launch Timer env
                   {| sys := sys st; timerDue := false;
                      inflight := inflight st; ended := ended st |})
      else None
  | Request url env =>
      if bool_decide (url = "/send-dm")
      then Some (launch Manual env st)
      else Some {| sys := snd (server url env (sys st));
                   timerDue := timerDue st; inflight := inflight st;
                   ended := ended st |}
  | NetworkAnswers i env =>
      match inflight st !! i with
      | None => None
      | Some (o, u) =>
          let '(e, s') := attemptDM_resume env u (sys st) in
          Some {| sys := s';
                  timerDue := isTimer o || timerDue st;
                  inflight := delete i (inflight st);
                  ended := ended st ++ [(o, Ran e)] |}
      end
  end.

Fixpoint run (evs : list Event) (st : Sched) : option Sched :=
  match evs with
  | [] => Some st
  | ev :: rest =>
      match step ev st with
      | Some st' => run rest st'
      | None => None
      end
  end.

(** [main]: the state is loaded and the first [runScheduler()] is due. *)
Definition start (d : Disk) : option Sched :=
  match main d with
  | Some s => Some {| sys := s; timerDue := true; inflight := []; ended := [] |}
  | None => None
  end.



End EventLoop.

(** ** The design document's wording, for comparison with the code *)

Module Spec.

Inductive Reason : Type :=
| MonthlyCapExceeded
| TooSoon
| DailyCapReached.

Inductive Decision : Type :=
| Allowed
| Denied (reason : Reason) (retryAfter : option Z).

Definition reasonOf (d : Decision) : option Reason :=
  match d with Allowed => None | Denied r _ => Some r end.

(** QuotaState of the data model; instants are epoch milliseconds. *)
Record QuotaState : Type := mkQuotaState {
  dailyCount          : Z;
  dailyResetDate      : string;
  lastActionTimestamp : Z;
  monthlyCapExceeded  : bool;
  monthlyCapResetAt   : option Z
}.

Definition clearCap (q : QuotaState) : QuotaState :=
  {| dailyCount := dailyCount q; dailyResetDate := dailyResetDate q;
     lastActionTimestamp := lastActionTimestamp q;
     monthlyCapExceeded := false; monthlyCapResetAt := None |}.

Definition rollDaily (today : string) (q : QuotaState) : QuotaState :=
  if bool_decide (dailyResetDate q ≠ today)
  then {| dailyCount := 0; dailyResetDate := today;
          lastActionTimestamp := lastActionTimestamp q;
          monthlyCapExceeded := monthlyCapExceeded q;
          monthlyCapResetAt := monthlyCapResetAt q |}
  else q.

Section Config.
Variables (dailyTarget minInterval : Z).

(** Steps (b) to (e) of [canAct]. *)
Definition canAct_rest (now : Z) (today : string) (q : QuotaState)
  : Decision * QuotaState :=
  let q1 := rollDaily today q in
  if now - lastActionTimestamp q1 <? minInterval
  then (Denied TooSoon (Some (lastActionTimestamp q1 + minInterval)), q1)
  else if dailyTarget <=? dailyCount q1
  then (Denied DailyCapReached None, q1)
  else (Allowed, q1).

(** [canAct(now)], steps (a) to (e) in the order of section 4.1;
    [today] is the calendar date of [now]. *)
Definition canAct (now : Z) (today : string) (q : QuotaState)
  : Decision * QuotaState :=
  match monthlyCapExceeded q, monthlyCapResetAt q with
  | true, Some resetAt =>
      if now <? resetAt
      then (Denied MonthlyCapExceeded (Some resetAt), q)
      else canAct_rest now today (clearCap q)
  | true, None => canAct_rest now today (clearCap q)
  | false, _ => canAct_rest now today q
  end.
End Config.



(** [POST /trigger] of section 4.5: the attempt runs unless the monthly
    cap denies, whatever spacing and daily count say; the outcome is
    returned. *)
Definition trigger {S O : Type} (capDenies : bool) (attempt : S → O * S) (s : S)
  : option O * S :=
  if capDenies then (None, s)
  else let '(o, s') := attempt s in (Some o, s').

End Spec.

(** ** Sequences of calls on the rate-limit handler *)

Module Calls.
Import RateLimit.

(** The public methods that do not take a provider error. *)
Inductive Call : Type :=
| CanMake (today : string) (nowMs : Z)    (* canMakeReadRequest() *)
| Increment                               (* incrementReadAttempts() *)
| SetMax (max : Z).                       (* setMaxDailyReadAttempts(max) *)

(** Runs the calls in order; collects what each [canMakeReadRequest]
    returned or threw. *)
Fixpoint runCalls (cs : list Call) (h : Handler)
  : list (Completion Verdict) * Handler :=
  match cs with
  | [] => ([], h)
  | CanMake today nowMs :: rest =>
      let '(v, h1) := canMakeReadRequest today nowMs h in
      let '(vs, h2) := runCalls rest h1 in
      (v :: vs, h2)
  | Increment :: rest => runCalls rest (incrementReadAttempts h)
  | SetMax max :: rest => runCalls rest (setMaxDailyReadAttempts max h)
  end.

(** The call reads a clock strictly before the instant [T] (epoch seconds). *)
Definition before (T : Z) (c : Call) : Prop :=
  match c with
  | CanMake _ nowMs => nowMs < T * 1000
  | _ => True
  end.

(** The handler is under a cap that lifts at [T]. *)
Definition capped (T : Z) (h : Handler) : Prop :=
  monthlyCapExceeded h = true ∧ monthlyCapResetTime h = T.

Definition isCanMake (c : Call) : bool :=
  match c with CanMake _ _ => true | _ => false end.

End Calls.

(** ** The code's state seen as the design document's QuotaState *)

Module View.
Import Agent.

Definition quotaView (s : System) : Spec.QuotaState :=
  {| Spec.dailyCount := dailyDMs s;
     Spec.dailyResetDate := lastResetDate s;
     Spec.lastActionTimestamp := lastDMTime s;
     Spec.monthlyCapExceeded :=
       from_option RateLimit.monthlyCapExceeded false (rateLimiter s);
     Spec.monthlyCapResetAt :=
       (λ h, RateLimit.monthlyCapResetTime h * 1000) <$> rateLimiter s |}.

Definition reasonOfGate (g : option GateExit) : option Spec.Reason :=
  match g with
  | Some (TooSoon _) => Some Spec.TooSoon
  | Some TargetReached => Some Spec.DailyCapReached
  | None => None
  end.

(** Step (a) of [canAct] read off the handler: the cap is recorded and
    has not lifted at [nowMs]. *)
Definition monthlyDenies (nowMs : Z) (s : System) : bool :=
  match rateLimiter s with
  | Some h => RateLimit.monthlyCapExceeded h
              && (nowMs <? RateLimit.monthlyCapResetTime h * 1000)
  | None => false
  end.

(** A persisted file that is missing, unreadable or does not parse. *)
Definition unusable {A} (f : File A) : Prop := f = Missing ∨ f = Corrupt.

Definition withRateLimiter (r : option RateLimit.Handler) (s : System) : System :=
  {| lastDMTime := lastDMTime s; dailyDMs := dailyDMs s;
     lastResetDate := lastResetDate s; sentDMs := sentDMs s;
     rateLimiter := r; disk := disk s |}.

End View.

(** ** Concrete inputs used by the examples below *)

Module Scenario.
Import RateLimit DmPlugin DmManager Agent EventLoop.

(** The 429 the Twitter API answers once the monthly product cap is hit. *)
Definition capData : ErrorData :=
  {| title := Some "UsageCapExceeded";
     detail := Some "Usage cap exceeded: Monthly product cap";
     type := Some "https://api.twitter.com/2/problems/usage-capped" |}.

Definition capError (r : option Z) : TwitterError :=
  {| code := Some 429; data := Some capData;
     rateLimit := Some {| reset := r |} |}.

Definition capErrorNoRateLimit : TwitterError :=
  {| code := Some 429; data := Some capData; rateLimit := None |}.

(** 2023-11-14T22:13:20Z in epoch seconds, and three days later. *)
Definition t0 : Z := 1700000000.
Definition resetAt : Z := t0 + 3 * 86400.

(** Fields in order: monthlyCapExceeded, monthlyCapResetTime,
    dailyReadAttempts, lastResetDate, maxDailyReadAttempts. *)
Definition handler0 : Handler := mkHandler false 0 7 "2023-11-13" 50.

Definition cappedHandler : Handler := mkHandler true resetAt 7 "2023-11-13" 50.

Definition emptyDisk : Disk :=
  {| dirExists := true; writable := true;
     stateFile := Missing; sentFile := Missing |}.

Definition alice : TargetUser :=
  {| userId := "42"; username := "alice"; context := Some "meditation teacher" |}.


Definition greeting : string := "Loved your last thread on breathing!".

(** A tick on 2023-11-14 at which everything outside works. *)
Definition goodEnv (nowMs : Z) : Env :=
  {| now := nowMs; now2 := nowMs; today := "2023-11-14";
     targets := Holds [alice]; pick := 0%nat;
     gen := GenContent (Some greeting); dm := DmData;
     sentAt := nowMs + 2000; doneAt := nowMs + 2001 |}.

(** A clock reading [ms] after the epoch, on 1970-01-01. *)
Definition epochEnv (ms : Z) : Env :=
  {| now := ms; now2 := ms; today := "1970-01-01";
     targets := Holds [alice]; pick := 0%nat;
     gen := GenContent (Some greeting); dm := DmData;
     sentAt := ms + 2000; doneAt := ms + 2001 |}.

(** The state right after a DM was counted at [t = 0]. *)
Definition afterActionAtZero : System :=
  recordDM 0 (resetDailyCounterIfNeeded "1970-01-01" (boot emptyDisk)).

(** Same tick, but Twitter rejects the send with the monthly-cap error. *)
Definition capHitEnv (nowMs : Z) : Env :=
  {| now := nowMs; now2 := nowMs; today := "2023-11-14";
     targets := Holds [alice]; pick := 0%nat;
     gen := GenContent (Some greeting);
     dm := DmRejected (capError (Some resetAt));
     sentAt := nowMs + 2000; doneAt := nowMs + 2001 |}.

Definition diskWith (ledger : gmap string Z) : Disk :=
  {| dirExists := true; writable := true;
     stateFile := Missing; sentFile := Holds ledger |}.

(** Three DMs already sent today, the last one long ago. *)
Definition idle (ledger : gmap string Z) (r : option Handler) : System :=
  {| lastDMTime := t0 * 1000 - 3600000; dailyDMs := 3;
     lastResetDate := "2023-11-14"; sentDMs := ledger;
     rateLimiter := r; disk := diskWith ledger |}.

(** Same, but the last DM went out one minute ago. *)
Definition justSent (ledger : gmap string Z) : System :=
  {| lastDMTime := t0 * 1000 - 60000; dailyDMs := 3;
     lastResetDate := "2023-11-14"; sentDMs := ledger;
     rateLimiter := None; disk := diskWith ledger |}.

End Scenario.

(** ** Sequential runs of attemptDM *)

Module Runs.
Import DmManager Agent.

(** One [attemptDM] after the other, each given its own [Env]. *)
Fixpoint attempts (envs : list Env) (s : System) : list Outcome * System :=
  match envs with
  | [] => ([], s)
  | env :: rest =>
      let '(o, s1) := attemptDM env s in
      let '(os, s2) := attempts rest s1 in
      (o :: os, s2)
  end.

Definition sentTo (o : Outcome) : option string :=
  match o with
  | Ran (Sent id) => Some id
  | _ => None
  end.

(** The recipients that were sent a DM, in order. *)
Definition recipients (os : list Outcome) : list string := omap sentTo os.

Definition isGate (o : Outcome) : Prop :=
  match o with Gate _ => True | Ran _ => False end.

(** The disk takes writes and sent_dms.json holds the ledger in memory. *)
Definition inStep (s : System) : Prop :=
  writable (disk s) = true
  ∧ dirExists (disk s) = true
  ∧ sentFile (disk s) = Holds (sentDMs s).

End Runs.

(** ** The comment and mention campaigns

    The second implementation in plugins/dmPlugin/dmManager.ts
    ([findAndDMCommenters] over the replies to a tweet) and its variant
    that walks the mention timeline.  Both keep [sentDMs], [dailyDMs] and
    [lastDMResetDate] in one file and share the collecting and the
    sending loop; they differ in the size of the batch (5 or 1) and in
    that the mention variant skips the account itself. *)

Module Campaign.

Definition MAX_DMS_PER_DAY : Z := 30.

(** The object in sent_dms.json as this implementation writes it. *)
Record SavedJson : Type := mkSavedJson {
  j_sentDMs         : option (gmap string Z);
  j_dailyDMs        : option Z;
  j_lastDMResetDate : option string
}.

Record Store : Type := mkStore {
  dataDir   : bool;               (* /app/data exists *)
  takes     : bool;               (* mkdirSync / writeFileSync succeed *)
  savedFile : File SavedJson      (* /app/data/sent_dms.json *)
}.

(** The three module variables and the disk. *)
Record State : Type := mkState {
  sentDMs         : gmap string Z;
  dailyDMs        : Z;
  lastDMResetDate : string;
  store           : Store
}.

Definition initial (st : Store) : State :=
  {| sentDMs := ∅; dailyDMs := 0; lastDMResetDate := ""; store := st |}.

Definition saveSentDMs (s : State) : State :=
  if takes (store s) && dataDir (store s)
  then {| sentDMs := sentDMs s; dailyDMs := dailyDMs s;
          lastDMResetDate := lastDMResetDate s;
          store := {| dataDir := dataDir (store s); takes := takes (store s);
                      savedFile := Holds
                        {| j_sentDMs := Some (sentDMs s);
                           j_dailyDMs := Some (dailyDMs s);
                           j_lastDMResetDate := Some (lastDMResetDate s) |} |} |}
  else s.

Definition ensureDirExists (s : State) : Completion State :=
  if dataDir (store s) then Returned s
  else if takes (store s)
  then Returned {| sentDMs := sentDMs s; dailyDMs := dailyDMs s;
                   lastDMResetDate := lastDMResetDate s;
                   store := {| dataDir := true; takes := takes (store s);
                               savedFile := savedFile (store s) |} |}
  else Threw IOError.

(** The [try] block of [loadSentDMs]. *)
Definition loadSentDMs_try (s : State) : Completion State :=
  if existsSync (savedFile (store s)) then
    match readJson (savedFile (store s)) with
    | Threw e => Threw e
    | Returned saved =>
        Returned {| sentDMs := default ∅ (j_sentDMs saved);
                    dailyDMs := or0 (j_dailyDMs saved);
                    lastDMResetDate := orEmpty (j_lastDMResetDate saved);
                    store := store s |}
    end
  else
    match ensureDirExists s with
    | Threw e => Threw e
    | Returned s1 => Returned (saveSentDMs s1)
    end.

(** The [catch] empties the ledger and nothing else. *)
Definition loadSentDMs (s : State) : State :=
  match loadSentDMs_try s with
  | Returned s' => s'
  | Threw _ => {| sentDMs := ∅; dailyDMs := dailyDMs s;
                  lastDMResetDate := lastDMResetDate s; store := store s |}
  end.

Definition resetDailyDMsIfNeeded (today : string) (s : State) : State :=
  if bool_decide (lastDMResetDate s ≠ today)
  then saveSentDMs {| sentDMs := sentDMs s; dailyDMs := 0;
                      lastDMResetDate := today; store := store s |}
  else s.

(** A tweet as the loops read it. *)
Record Tweet : Type := mkTweet {
  id        : string;
  author_id : option string
}.

(** [commenters.add(a)] on a [Set] kept in insertion order. *)
Definition setAdd (a : string) (set : list string) : list string :=
  if bool_decide (a ∈ set) then set else set ++ [a].

Section Loops.
(** [limit] is 5 for the comment campaign and 1 for the mention one;
    [self] is the account whose mentions are read, [None] for comments. *)
Variables (limit : nat) (self : option string).

(** The [for (const reply of replyData)] loop. *)
Fixpoint collect (ledger : gmap string Z) (replies : list Tweet)
    (commenters : list string) : list string :=
  match replies with
  | [] => commenters
  | reply :: rest =>
      collect ledger rest
        (match author_id reply with
         | Some a =>
             if negb (bool_decide (a = "")) && (length commenters <? limit)%nat
             then if negb (truthyAt ledger a) && negb (bool_decide (self = Some a))
                  then setAdd a commenters
                  else commenters
             else commenters
         | None => commenters
         end)
  end.

(** The answer of [sendDmToParticipant] for one recipient: resolved, with
    the [Date.now()] read right after, or rejected. *)
Inductive SendAnswer : Type :=
| SendOk (at_ : Z)
| SendRejected.

(** The [for (const userId of commenters)] loop; also returns who was
    sent a DM. *)
Fixpoint sendLoop (send : string → SendAnswer) (commenters : list string)
    (s : State) : list string * State :=
  match commenters with
  | [] => ([], s)
  | userId :: rest =>
      if MAX_DMS_PER_DAY <=? dailyDMs s then ([], s)
      else match send userId with
           | SendOk at_ =>
               let s1 := saveSentDMs
                           {| sentDMs := <[userId := at_]> (sentDMs s);
                              dailyDMs := dailyDMs s + 1;
                              lastDMResetDate := lastDMResetDate s;
                              store := store s |} in
               let '(sent, s2) := sendLoop send rest s1 in
               (userId :: sent, s2)
           | SendRejected => sendLoop send rest s
           end
  end.
End Loops.

(** The answer of a [twitterClient.v2] read: rejected, or resolved with
    the property the code reads ([data], [tweets]), which may be absent. *)
Inductive Read (A : Type) : Type :=
| ReadRejected
| ReadData (d : option A).
Arguments ReadRejected {A}.
Arguments ReadData {A} d.

(** What the loops are handed.  The mention timeline's [tweets] is an
    array.  The [data] of a search result is the raw body of the answer,
    [{ data, meta }] with the tweets inside: an object that has no
    [length] and cannot be iterated. *)
Inductive Payload : Type :=
| ArrayOf (items : list Tweet)
| BodyOf (inner : option (list Tweet)).

(** [p.length === 0]: [undefined === 0] is false for a body. *)
Definition lengthIsZero (p : Payload) : bool :=
  match p with
  | ArrayOf [] => true
  | _ => false
  end.

(** [p[Math.floor(Math.random() * p.length)]]: on a body the index is
    [NaN] and the element [undefined]. *)
Definition randomElement (p : Payload) (pick : nat) : option Tweet :=
  match p with
  | ArrayOf items => items !! pick
  | BodyOf _ => None
  end.

(** [for (const x of p)] *)
Definition iterate (p : Payload) : Completion (list Tweet) :=
  match p with
  | ArrayOf items => Returned items
  | BodyOf _ => Threw TypeError
  end.

(** The ways a campaign run ends. *)
Inductive Exit : Type :=
| LimitReached                 (* 'Daily DM limit reached' *)
| NoTargets                    (* 'No target accounts configured' *)
| NoTweets                     (* 'No tweets found from this account' *)
| NoUser                       (* 'Could not find user' *)
| NoReplies                    (* 'No replies found' / 'No mentions found' *)
| CampaignError                (* 'Error in DM campaign' *)
| Completed (sent : list string).

(** What the outside world supplies to one run of the comment campaign;
    each search resolves with its raw body. *)
Record Env : Type := mkEnv {
  today       : string;                        (* date read by resetDailyDMsIfNeeded *)
  accounts    : File (list string);            (* dm_target_accounts.json, .accounts *)
  pickAccount : nat;
  tweets      : Read (option (list Tweet));    (* search from:account *)
  pickTweet   : nat;
  replies     : Read (option (list Tweet));    (* search conversation_id:tweet *)
  send        : string → SendAnswer
}.

(** [searchResults.data] for an answer read as [r]. *)
Definition dataOf (r : option (option (list Tweet))) : option Payload :=
  BodyOf <$> r.

(** The [try] block of [findAndDMCommenters]. *)
Definition findAndDMCommenters_try (env : Env) (s : State)
  : Completion (Exit * State) :=
  match (if existsSync (accounts env) then readJson (accounts env)
         else Returned []) with
  | Threw e => Threw e
  | Returned targetAccounts =>
      if bool_decide (targetAccounts = []) then Returned (NoTargets, s)
      else
        match tweets env with
        | ReadRejected => Threw ApiError
        | ReadData found =>
            match dataOf found with
            | None => Returned (NoTweets, s)
            | Some data =>
                if lengthIsZero data then Returned (NoTweets, s)
                else
                  match randomElement data (pickTweet env) with
                  | None => Threw TypeError        (* randomTweet.id *)
                  | Some randomTweet =>
                      match replies env with
                      | ReadRejected => Threw ApiError
                      | ReadData answered =>
                          match dataOf answered with
                          | None => Returned (NoReplies, s)
                          | Some replyData =>
                              if lengthIsZero replyData
                              then Returned (NoReplies, s)
                              else
                                match iterate replyData with
                                | Threw e => Threw e
                                | Returned each =>
                                    let commenters :=
                                      collect 5 None (sentDMs s) each [] in
                                    let '(sent, s') :=
                                      sendLoop (send env) commenters s in
                                    Returned (Completed sent, s')
                                end
                          end
                      end
                  end
            end
        end
  end.

Definition findAndDMCommenters (env : Env) (s : State) : Exit * State :=
  let s1 := resetDailyDMsIfNeeded (today env) s in
  if MAX_DMS_PER_DAY <=? dailyDMs s1 then (LimitReached, s1)
  else match findAndDMCommenters_try env s1 with
       | Returned r => r
       | Threw _ => (CampaignError, s1)
       end.

(** What one run of the mention campaign is given. *)
Record MentionEnv : Type := mkMentionEnv {
  m_today       : string;
  m_accounts    : File (list string);
  m_pickAccount : nat;
  m_user        : Read string;              (* userByUsername: data.id *)
  m_mentions    : Read (list Tweet);        (* userMentionTimeline: tweets *)
  m_send        : string → SendAnswer
}.

(** The [try] block of the mention variant; the source names this
    function [findAndDMCommenters] too. *)
Definition findAndDMMentioners_try (env : MentionEnv) (s : State)
  : Completion (Exit * State) :=
  match (if existsSync (m_accounts env) then readJson (m_accounts env)
         else Returned []) with
  | Threw e => Threw e
  | Returned targetAccounts =>
      if bool_decide (targetAccounts = []) then Returned (NoTargets, s)
      else
        match m_user env with
        | ReadRejected => Threw ApiError
        | ReadData None => Returned (NoUser, s)
        | ReadData (Some userId) =>
            match m_mentions env with
            | ReadRejected => Threw ApiError
            | ReadData None | ReadData (Some []) => Returned (NoReplies, s)
            | ReadData (Some mentionsArray) =>
                let commenters :=
                  collect 1 (Some userId) (sentDMs s) mentionsArray [] in
                let '(sent, s') := sendLoop (m_send env) commenters s in
                Returned (Completed sent, s')
            end
        end
  end.

Definition findAndDMMentioners (env : MentionEnv) (s : State) : Exit * State :=
  let s1 := resetDailyDMsIfNeeded (m_today env) s in
  if MAX_DMS_PER_DAY <=? dailyDMs s1 then (LimitReached, s1)
  else match findAndDMMentioners_try env s1 with
       | Returned r => r
       | Threw _ => (CampaignError, s1)
       end.

(** [startDMCampaign(0)]: load, then one run. *)
Definition startDMCampaign (env : Env) (s : State) : Exit * State :=
  findAndDMCommenters env (loadSentDMs s).

End Campaign.

(** ** Concrete inputs for the campaign examples *)

Module CampaignScenario.
Import Campaign.

Definition reply (a : string) : Tweet := {| id := "1724"; author_id := Some a |}.

(** Nobody contacted yet, nothing on disk. *)
Definition fresh : State := initial (mkStore true true Missing).

(** One tweet found; replies by "1", "2" and "1" again, and one without
    author; every DM would be delivered. *)
Definition commentEnv : Env :=
  {| today := "2023-11-14";
     accounts := Holds ["catharsis"]; pickAccount := 0%nat;
     tweets := ReadData (Some (Some [{| id := "1700"; author_id := Some "9" |}]));
     pickTweet := 0%nat;
     replies := ReadData (Some (Some [reply "1"; reply "2"; reply "1";
                                      {| id := "1725"; author_id := None |}]));
     send := λ _, SendOk 1700000003000 |}.

(** Account "9" is mentioned by itself and then by "3". *)
Definition mentionEnv : MentionEnv :=
  {| m_today := "2023-11-14";
     m_accounts := Holds ["catharsis"]; m_pickAccount := 0%nat;
     m_user := ReadData (Some "9");
     m_mentions := ReadData (Some [reply "9"; reply "3"; reply "4"]);
     m_send := λ _, SendOk 1700000003000 |}.

(** The daily maximum is reached on 2023-11-14. *)
Definition spent : State :=
  {| sentDMs := ∅; dailyDMs := 30; lastDMResetDate := "2023-11-14";
     store := mkStore true true Missing |}.

End CampaignScenario.

(** * Properties *)

(** ** The rate-limit handler *)

Section RateLimitFacts.
Import RateLimit Calls.

Example parse_capError r :
  parseTwitterError (Scenario.capError r)
  = {| isMonthlyCapExceeded := true; resetTime := r |}.
Proof. reflexivity. Qed.

Example parse_capErrorNoRateLimit :
  parseTwitterError Scenario.capErrorNoRateLimit
  = {| isMonthlyCapExceeded := true; resetTime := None |}.
Proof. reflexivity. Qed.

Example includes_examples :
  includes "Monthly product cap" "Usage cap exceeded: Monthly product cap" = true
  ∧ includes "Monthly product cap" "Too Many Requests" = false
  ∧ includes "Monthly product cap" "" = false.
Proof. repeat split; reflexivity. Qed.

(** [Math.round(2.5)] is 3, [Math.round(-2.5)] is -2, [Math.round(0.4)] is 0. *)
Example roundDiv_examples :
  roundDiv 5 2 = 3 ∧ roundDiv (-5) 2 = -2 ∧ roundDiv 2 5 = 0
  ∧ roundDiv 240000 60000 = 4.
Proof. repeat split; reflexivity. Qed.

Example validDate_examples :
  validDate 0 = true ∧ validDate (Scenario.resetAt * 1000) = true
  ∧ validDate 8640000000000001 = false.
Proof. repeat split; reflexivity. Qed.

Example parse_other_429 :
  isMonthlyCapExceeded
    (parseTwitterError {| code := Some 429; data := None; rateLimit := None |})
  = false.
Proof. reflexivity. Qed.

Lemma seconds_before (T nowMs : Z) :
  nowMs < T * 1000 ↔ floorDiv nowMs 1000 < T.
Proof.
  unfold floorDiv. split; intros H.
  - apply Z.div_lt_upper_bound; lia.
  - pose proof (Z.mul_div_le nowMs 1000 ltac:(lia)).
    pose proof (Z.mod_pos_bound nowMs 1000 ltac:(lia)).
    pose proof (Z.div_mod nowMs 1000 ltac:(lia)). lia.
Qed.

Lemma capped_reset T today h :
  capped T h → capped T (resetDailyCounterIfNeeded today h).
Proof.
  unfold capped, resetDailyCounterIfNeeded. intros [Hc Ht].
  case_bool_decide; simpl; auto.
Qed.

Lemma capped_handle e T h :
  parseTwitterError e = {| isMonthlyCapExceeded := true; resetTime := Some T |} →
  capped T (snd (handleTwitterError e h)).
Proof.
  intros Hp. unfold handleTwitterError. rewrite Hp. simpl.
  destruct (validDate _); split; reflexivity.
Qed.

(** A call before the reset instant is denied and keeps the cap. *)
Lemma canMake_before T today nowMs h :
  capped T h → validDate (T * 1000) = true → nowMs < T * 1000 →
  canMakeReadRequest today nowMs h
  = (Returned MonthlyCapDenied, resetDailyCounterIfNeeded today h).
Proof.
  intros Hc Hv Hlt.
  destruct (capped_reset T today h Hc) as [Hf Ht].
  unfold canMakeReadRequest. rewrite Hf, Ht, Hv.
  apply seconds_before in Hlt. apply Z.ltb_lt in Hlt. now rewrite Hlt.
Qed.

(** A call at or after the reset instant clears the cap and falls
    through to the daily limit. *)
Lemma canMake_after T today nowMs h :
  capped T h → T * 1000 <= nowMs →
  let h1 := resetDailyCounterIfNeeded today h in
  canMakeReadRequest today nowMs h
  = (Returned (if maxDailyReadAttempts h1 <=? dailyReadAttempts h1
               then DailyLimitDenied else ReadAllowed),
     mkHandler false 0 (dailyReadAttempts h1) (lastResetDate h1)
               (maxDailyReadAttempts h1)).
Proof.
  intros Hc Hge h1.
  destruct (capped_reset T today h Hc) as [Hf Ht]. fold h1 in Hf, Ht.
  unfold canMakeReadRequest. fold h1. rewrite Hf, Ht.
  assert (Hn : (floorDiv nowMs 1000 <? T) = false).
  { apply Z.ltb_ge.
    destruct (Z.lt_ge_cases (floorDiv nowMs 1000) T) as [H|H]; [|exact H].
    apply seconds_before in H. lia. }
  rewrite Hn. simpl. destruct (_ <=? _); reflexivity.
Qed.

Lemma runCalls_before T cs : ∀ h,
  capped T h → validDate (T * 1000) = true → Forall (before T) cs →
  Forall (eq (Returned MonthlyCapDenied)) (fst (runCalls cs h))
  ∧ length (fst (runCalls cs h)) = length (filter (λ c, isCanMake c = true) cs)
  ∧ capped T (snd (runCalls cs h)).
Proof.
  induction cs as [|c cs IH]; intros h Hc Hv Hall.
  - simpl. auto.
  - inversion Hall as [|? ? Hb Hrest]; subst.
    destruct c as [today nowMs| |max]; cbn [runCalls].
    + cbn [before] in Hb.
      rewrite (canMake_before T today nowMs h Hc Hv Hb).
      destruct (IH (resetDailyCounterIfNeeded today h)
                  (capped_reset _ _ _ Hc) Hv Hrest) as (Hvs & Hlen & Hcap).
      destruct (runCalls cs _) as [vs h2]; cbn [fst snd] in *.
      rewrite filter_cons_True by reflexivity.
      split; [constructor; auto|]. split; [cbn [length]; lia | exact Hcap].

    + rewrite filter_cons_False by (cbn; congruence).
      apply IH; [destruct Hc; split; assumption | assumption | assumption].
    + rewrite filter_cons_False by (cbn; congruence).
      apply IH; [destruct Hc; split; assumption | assumption | assumption].
Qed.

Lemma parse_resetTime e :
  isMonthlyCapExceeded (parseTwitterError e) = true →
  resetTime (parseTwitterError e) = rateLimit e ≫= reset.
Proof.
  unfold parseTwitterError.
  destruct (code e) as [[|p|p]|]; try discriminate;
    destruct (data e); try discriminate;
    repeat (destruct p as [p|p|]; try discriminate);
    destruct (_ && _); simpl; intros; try discriminate; reflexivity.
Qed.

End RateLimitFacts.

(** C3.  Once [handleTwitterError] has recorded a monthly-cap error whose
    reset instant is [T] (epoch seconds), every [canMakeReadRequest] that
    reads a clock strictly before [T] is denied for the monthly cap and
    leaves the cap in place, whatever [incrementReadAttempts] and
    [setMaxDailyReadAttempts] calls come in between; the first call at or
    after [T] clears the flag and is decided by the daily limit alone. *)
Theorem monthly_cap_enforced_until_reset
    (e : RateLimit.TwitterError) (T : Z) (h : RateLimit.Handler)
    (cs : list Calls.Call) (today : string) (nowMs : Z) :
  RateLimit.parseTwitterError e
  = {| RateLimit.isMonthlyCapExceeded := true; RateLimit.resetTime := Some T |} →
  validDate (T * 1000) = true →
  Forall (Calls.before T) cs →
  T * 1000 <= nowMs →
  let h0 := snd (RateLimit.handleTwitterError e h) in
  let vs := fst (Calls.runCalls cs h0) in
  let h1 := snd (Calls.runCalls cs h0) in
  let r := RateLimit.canMakeReadRequest today nowMs h1 in
  fst (RateLimit.handleTwitterError e h) = Returned tt
  ∧ Forall (eq (Returned RateLimit.MonthlyCapDenied)) vs
  ∧ length vs = length (filter (λ c, Calls.isCanMake c = true) cs)
  ∧ RateLimit.monthlyCapExceeded h1 = true
  ∧ RateLimit.monthlyCapExceeded (snd r) = false
  ∧ fst r = Returned
              (if RateLimit.maxDailyReadAttempts (snd r)
                  <=? RateLimit.dailyReadAttempts (snd r)
               then RateLimit.DailyLimitDenied else RateLimit.ReadAllowed).
Proof.
  intros Hp Hv Hcs Hge h0 vs h1 r.
  assert (Hc0 : Calls.capped T h0) by (apply capped_handle; exact Hp).
  destruct (runCalls_before T cs h0 Hc0 Hv Hcs) as (Hvs & Hlen & Hc1).
  fold vs in Hvs, Hlen. fold h1 in Hc1.
  split.
  { unfold RateLimit.handleTwitterError. rewrite Hp. cbn.
    unfold or0; cbn. now rewrite Hv. }
  split; [exact Hvs|]. split; [exact Hlen|]. split; [apply Hc1|].
  unfold r. rewrite (canMake_after T today nowMs h1 Hc1 Hge). cbn.
  split; reflexivity.
Qed.

Lemma monthly_cap_enforced_until_reset_witness :
  Forall (eq (Returned RateLimit.MonthlyCapDenied))
    (fst (Calls.runCalls
            [Calls.CanMake "2023-11-15" ((Scenario.t0 + 86400) * 1000);
             Calls.Increment;
             Calls.CanMake "2023-11-17" (Scenario.resetAt * 1000 - 1)]
            (snd (RateLimit.handleTwitterError
                    (Scenario.capError (Some Scenario.resetAt))
                    Scenario.handler0)))).
Proof.
  apply (monthly_cap_enforced_until_reset
           (Scenario.capError (Some Scenario.resetAt)) Scenario.resetAt
           Scenario.handler0 _ "2023-11-17" ((Scenario.resetAt + 1) * 1000)).
  - reflexivity.
  - reflexivity.
  - repeat constructor; vm_compute; reflexivity.
  - vm_compute; discriminate.
Defined.

(** C10.  When the monthly-cap error carries no [rateLimit.reset],
    [handleTwitterError] sets the flag with a reset time of 0; the next
    [canMakeReadRequest], at any clock reading from the epoch on, clears
    the flag and is not denied for the monthly cap. *)
Theorem absent_reset_never_enforced
    (e : RateLimit.TwitterError) (h : RateLimit.Handler)
    (today : string) (nowMs : Z) :
  RateLimit.isMonthlyCapExceeded (RateLimit.parseTwitterError e) = true →
  RateLimit.rateLimit e ≫= RateLimit.reset = None →
  0 <= nowMs →
  let h0 := snd (RateLimit.handleTwitterError e h) in
  let r := RateLimit.canMakeReadRequest today nowMs h0 in
  fst (RateLimit.handleTwitterError e h) = Returned tt
  ∧ RateLimit.monthlyCapExceeded h0 = true
  ∧ RateLimit.monthlyCapResetTime h0 = 0
  ∧ RateLimit.monthlyCapExceeded (snd r) = false
  ∧ (fst r = Returned RateLimit.ReadAllowed
     ∨ fst r = Returned RateLimit.DailyLimitDenied).
Proof.
  intros Hcap Hnone Hnow h0 r.
  pose proof (parse_resetTime e Hcap) as Hr. rewrite Hnone in Hr.
  assert (Hh : RateLimit.handleTwitterError e h
               = (Returned tt,
                  RateLimit.mkHandler true 0 (RateLimit.dailyReadAttempts h)
                    (RateLimit.lastResetDate h) (RateLimit.maxDailyReadAttempts h))).
  { unfold RateLimit.handleTwitterError. rewrite Hcap, Hr. reflexivity. }
  unfold r, h0. rewrite Hh. cbn [fst snd].
  split; [reflexivity|]. split; [reflexivity|]. split; [reflexivity|].
  set (g := RateLimit.mkHandler _ _ _ _ _).
  assert (Hc : Calls.capped 0 g) by (split; reflexivity).
  rewrite (canMake_after 0 today nowMs g Hc ltac:(lia)). cbn [fst snd].
  split; [reflexivity|]. destruct (_ <=? _); auto.
Qed.

Lemma absent_reset_never_enforced_witness :
  RateLimit.monthlyCapExceeded
    (snd (RateLimit.canMakeReadRequest "2023-11-14" (Scenario.t0 * 1000)
            (snd (RateLimit.handleTwitterError (Scenario.capError None)
                    Scenario.handler0))))
  = false.
Proof.
  apply (absent_reset_never_enforced (Scenario.capError None) Scenario.handler0
           "2023-11-14" (Scenario.t0 * 1000)).
  - reflexivity.
  - reflexivity.
  - vm_compute; discriminate.
Defined.

(** ** The entry point *)

Section AgentFacts.
Import DmPlugin DmManager Agent View.

Lemma saveState_quota s :
  lastDMTime (saveState s) = lastDMTime s
  ∧ dailyDMs (saveState s) = dailyDMs s
  ∧ lastResetDate (saveState s) = lastResetDate s
  ∧ sentDMs (saveState s) = sentDMs s
  ∧ rateLimiter (saveState s) = rateLimiter s.
Proof. unfold saveState, withDisk. simpl. auto. Qed.

(** [saveState] writes dm_state.json only. *)
Lemma saveState_sentFile s :
  sentFile (disk (saveState s)) = sentFile (disk s).
Proof.
  unfold saveState, withDisk, mkdirSync, writeState. simpl.
  destruct (disk s) as [de w sf lf]; simpl.
  destruct de, w; reflexivity.
Qed.

Lemma saveState_writes s :
  writable (disk s) = true →
  stateFile (disk (saveState s))
  = Holds {| j_lastDMTime := Some (lastDMTime s);
             j_dailyDMs := Some (dailyDMs s);
             j_lastResetDate := Some (lastResetDate s) |}.
Proof.
  unfold saveState, withDisk, mkdirSync, writeState. simpl.
  destruct (disk s) as [de w sf lf]; simpl. intros ->.
  destruct de; reflexivity.
Qed.

Lemma resetDaily_view today s :
  quotaView (resetDailyCounterIfNeeded today s)
  = Spec.rollDaily today (quotaView s).
Proof.
  unfold resetDailyCounterIfNeeded, Spec.rollDaily.
  cbn [quotaView Spec.dailyResetDate].
  case_bool_decide; reflexivity.
Qed.

Lemma resetDaily_frame today s :
  lastDMTime (resetDailyCounterIfNeeded today s) = lastDMTime s
  ∧ sentDMs (resetDailyCounterIfNeeded today s) = sentDMs s
  ∧ rateLimiter (resetDailyCounterIfNeeded today s) = rateLimiter s
  ∧ sentFile (disk (resetDailyCounterIfNeeded today s)) = sentFile (disk s).
Proof.
  unfold resetDailyCounterIfNeeded. case_bool_decide; [|auto].
  rewrite saveState_sentFile. cbn. auto.
Qed.

Lemma resetDaily_count today s :
  dailyDMs (resetDailyCounterIfNeeded today s)
  = (if bool_decide (lastResetDate s ≠ today) then 0 else dailyDMs s)
  ∧ lastResetDate (resetDailyCounterIfNeeded today s) = today.
Proof.
  unfold resetDailyCounterIfNeeded. case_bool_decide as H; cbn; [auto|].
  split; [reflexivity|]. destruct (decide (lastResetDate s = today)); congruence.
Qed.

(** The rate-limit handler is neither read nor written by the gate. *)
Lemma saveState_rateLimiter r s :
  saveState (withRateLimiter r s) = withRateLimiter r (saveState s).
Proof. reflexivity. Qed.

Lemma resetDaily_rateLimiter r today s :
  resetDailyCounterIfNeeded today (withRateLimiter r s)
  = withRateLimiter r (resetDailyCounterIfNeeded today s).
Proof.
  unfold resetDailyCounterIfNeeded. cbn [withRateLimiter lastResetDate].
  case_bool_decide; reflexivity.
Qed.

Lemma gate_rateLimiter r env s :
  attemptDM_gate env (withRateLimiter r s)
  = (fst (attemptDM_gate env s), withRateLimiter r (snd (attemptDM_gate env s))).
Proof.
  unfold attemptDM_gate. rewrite resetDaily_rateLimiter. reflexivity.
Qed.

(** *** What one [findAndSendDM] does to the ledger *)

Lemma begin_exit targets pick m :
  match findAndSendDM_begin targets pick m with
  | inl (Sent _) => False
  | inl _ => True
  | inr u => truthyAt m (u_userId u) = false
  end.
Proof.
  unfold findAndSendDM_begin.
  destruct (find_target_user targets pick) as [[] [msg|u]]; cbn; auto.
  destruct (truthyAt m (u_userId u)) eqn:E; auto.
Qed.

Lemma resume_exit gen dm sentAt u m d :
  let r := findAndSendDM_resume gen dm sentAt u m d in
  match fst r with
  | Sent id =>
      id = u_userId u
      ∧ snd r = (<[id := sentAt]> m, saveSentDMs (<[id := sentAt]> m) d)
  | _ => snd r = (m, d)
  end.
Proof.
  unfold findAndSendDM_resume. destruct gen as [|content]; cbn; [reflexivity|].
  destruct (_ <? 10); cbn; [reflexivity|].
  destruct (status _); cbn; auto.
Qed.

Lemma saveSentDMs_writes m d :
  writable d = true → dirExists d = true → sentFile (saveSentDMs m d) = Holds m.
Proof.
  unfold saveSentDMs, writeSent. intros -> ->. reflexivity.
Qed.

Lemma recordDM_frame t s :
  sentDMs (recordDM t s) = sentDMs s
  ∧ rateLimiter (recordDM t s) = rateLimiter s
  ∧ dailyDMs (recordDM t s) = dailyDMs s + 1
  ∧ lastDMTime (recordDM t s) = t.
Proof. unfold recordDM. cbn. auto. Qed.

Lemma try_begin_rateLimiter r env s :
  attemptDM_try_begin env (withRateLimiter r s)
  = (fst (attemptDM_try_begin env s),
     withRateLimiter r (snd (attemptDM_try_begin env s))).
Proof.
  unfold attemptDM_try_begin. cbn [withRateLimiter sentDMs disk].
  destruct (loadSentDMs _ _) as [loaded d1].
  destruct (findAndSendDM_begin _ _ _); reflexivity.
Qed.

Lemma resume_rateLimiter r env u s :
  attemptDM_resume env u (withRateLimiter r s)
  = (fst (attemptDM_resume env u s),
     withRateLimiter r (snd (attemptDM_resume env u s))).
Proof.
  unfold attemptDM_resume. cbn [withRateLimiter sentDMs disk].
  destruct (findAndSendDM_resume _ _ _ _ _ _) as [e [m d]]. reflexivity.
Qed.

Lemma try_rateLimiter r env s :
  attemptDM_try env (withRateLimiter r s)
  = (fst (attemptDM_try env s), withRateLimiter r (snd (attemptDM_try env s))).
Proof.
  unfold attemptDM_try. rewrite try_begin_rateLimiter.
  destruct (attemptDM_try_begin env s) as [[e|u] s']; cbn [fst snd];
    [reflexivity | apply resume_rateLimiter].
Qed.

Lemma attemptDM_rateLimiter r env s :
  attemptDM env (withRateLimiter r s)
  = (fst (attemptDM env s), withRateLimiter r (snd (attemptDM env s))).
Proof.
  unfold attemptDM. rewrite gate_rateLimiter.
  destruct (attemptDM_gate env s) as [[g|] s1]; cbn [fst snd]; [reflexivity|].
  rewrite try_rateLimiter. destruct (attemptDM_try env s1). reflexivity.
Qed.

Lemma loadSentDMs_consistent m d :
  sentFile d = Holds m → fst (loadSentDMs m d) = m.
Proof. unfold loadSentDMs. intros ->. reflexivity. Qed.

Lemma withRateLimiter_same s : withRateLimiter (rateLimiter s) s = s.
Proof. destruct s; reflexivity. Qed.

(** The two pieces of the [try] block, run back to back, are
    [startDMCampaign(0)] followed by the three statements after it. *)
Lemma try_is_campaign env s :
  attemptDM_try env s
  = let '(e, (m, d)) :=
      startDMCampaign (targets env) (pick env) (gen env) (dm env) (sentAt env)
        (sentDMs s) (disk s) in
    (e, recordDM (doneAt env) (withLedger m d s)).
Proof.
  unfold attemptDM_try, attemptDM_try_begin, startDMCampaign, findAndSendDM,
    attemptDM_resume.
  destruct (loadSentDMs (sentDMs s) (disk s)) as [loaded d1].
  destruct (findAndSendDM_begin _ _ _) as [e|u]; [reflexivity|].
  cbn [withLedger sentDMs disk].
  destruct (findAndSendDM_resume _ _ _ _ _ _) as [e [m d]]. reflexivity.
Qed.

(** The ledger and the counters after the [try] block. *)
Lemma try_effects env s :
  let r := attemptDM_try env s in
  let loaded := fst (loadSentDMs (sentDMs s) (disk s)) in
  rateLimiter (snd r) = rateLimiter s
  ∧ dailyDMs (snd r) = dailyDMs s + 1
  ∧ lastDMTime (snd r) = doneAt env
  ∧ match fst r with
    | Sent id => truthyAt loaded id = false
                 ∧ sentDMs (snd r) = <[id := sentAt env]> loaded
    | _ => sentDMs (snd r) = loaded
    end.
Proof.
  cbv zeta. unfold attemptDM_try, attemptDM_try_begin.
  destruct (loadSentDMs (sentDMs s) (disk s)) as [loaded d1]. cbn [fst].
  pose proof (begin_exit (targets env) (pick env) loaded) as Hb.
  destruct (findAndSendDM_begin _ _ _) as [e|u].
  - cbn [fst snd]. destruct (recordDM_frame (doneAt env) (withLedger loaded d1 s))
      as (H1 & H2 & H3 & H4).
    rewrite H1, H2, H3, H4. cbn.
    repeat split; try reflexivity. destruct e; try reflexivity; contradiction.
  - unfold attemptDM_resume. cbn [withLedger sentDMs disk].
    pose proof (resume_exit (gen env) (dm env) (sentAt env) u loaded d1) as Hr.
    cbv zeta in Hr.
    destruct (findAndSendDM_resume _ _ _ _ _ _) as [e [m d]].
    cbn [fst snd] in *.
    destruct (recordDM_frame (doneAt env) (withLedger m d (withLedger loaded d1 s)))
      as (H1 & H2 & H3 & H4).
    rewrite H1, H2, H3, H4. cbn.
    repeat split; try reflexivity.
    destruct e; try (injection Hr as -> ->; reflexivity).
    destruct Hr as [-> Hr]. injection Hr as -> ->. auto.
Qed.

End AgentFacts.

(** C8.  The /reset endpoint answers 200 'Counter reset', sets [dailyDMs]
    to 0 and writes the state file; [lastDMTime], [lastResetDate], the
    ledger in memory and on disk, and the rate-limit handler with its
    monthly-cap flag and reset time are as before.  Attempts that are
    waiting for the network are not disturbed either. *)
Theorem reset_clears_only_daily_count (env : Agent.Env) (s : Agent.System) :
  let r := Agent.server "/reset" env s in
  fst r = {| Agent.statusCode := 200; Agent.body := Agent.CounterReset |}
  ∧ Agent.dailyDMs (snd r) = 0
  ∧ Agent.lastDMTime (snd r) = Agent.lastDMTime s
  ∧ Agent.lastResetDate (snd r) = Agent.lastResetDate s
  ∧ Agent.sentDMs (snd r) = Agent.sentDMs s
  ∧ Agent.rateLimiter (snd r) = Agent.rateLimiter s
  ∧ sentFile (Agent.disk (snd r)) = sentFile (Agent.disk s)
  ∧ ∀ st : EventLoop.Sched,
      EventLoop.step (EventLoop.Request "/reset" env) st
      = Some {| EventLoop.sys := snd (Agent.server "/reset" env (EventLoop.sys st));
                EventLoop.timerDue := EventLoop.timerDue st;
                EventLoop.inflight := EventLoop.inflight st;
                EventLoop.ended := EventLoop.ended st |}.
Proof.
  cbv zeta. change (Agent.server "/reset" env s) with (Agent.handleReset s).
  unfold Agent.handleReset. cbn [fst snd].
  destruct (saveState_quota
              (Agent.withQuota (Agent.lastDMTime s) 0 (Agent.lastResetDate s) s))
    as (H1 & H2 & H3 & H4 & H5).
  rewrite H1, H2, H3, H4, H5, saveState_sentFile. cbn.
  repeat split; reflexivity.
Qed.

(** C9.  Start-up never fails on the persisted files.  When dm_state.json
    is missing, unreadable or unparsable, [loadState] leaves the initial
    values (0, 0, '') and [main] goes on to start the scheduler; when
    sent_dms.json is, the first [loadSentDMs] yields the empty ledger.
    [main] reaches the scheduler for every disk. *)
Theorem missing_or_corrupt_files_give_defaults (d : Disk) :
  (View.unusable (stateFile d) →
     Agent.loadState (Agent.boot d) = Agent.boot d
     ∧ Agent.main d = Some (Agent.boot d))
  ∧ (View.unusable (sentFile d) →
     fst (DmManager.loadSentDMs (Agent.sentDMs (Agent.boot d)) d) = ∅)
  ∧ (∃ s, Agent.main d = Some s ∧ EventLoop.start d
          = Some {| EventLoop.sys := s; EventLoop.timerDue := true;
                    EventLoop.inflight := []; EventLoop.ended := [] |}).
Proof.
  split; [|split].
  - intros [H|H]; unfold Agent.main, Agent.loadState, Agent.loadState_try;
      cbn [Agent.boot Agent.disk]; rewrite H; cbn; auto.
  - intros [H|H]; unfold DmManager.loadSentDMs; rewrite H; cbn.
    + destruct (DmManager.ensureDirExists d) as [[[]|e] d1]; reflexivity.
    + reflexivity.
  - unfold EventLoop.start, Agent.main. cbn. eexists; split; reflexivity.
Qed.

Lemma missing_or_corrupt_files_give_defaults_witness :
  Agent.main (mkDisk true true Corrupt Missing)
  = Some (Agent.boot (mkDisk true true Corrupt Missing))
  ∧ fst (DmManager.loadSentDMs ∅ (mkDisk true true Corrupt Missing)) = ∅.
Proof.
  destruct (missing_or_corrupt_files_give_defaults (mkDisk true true Corrupt Missing))
    as (Hstate & Hsent & _).
  split.
  - apply Hstate. right; reflexivity.
  - apply Hsent. left; reflexivity.
Defined.

(** C1 (as amended).  The check at the head of [attemptDM] is steps (b) to
    (e) of [canAct] in that order: roll the daily count when the date
    changed, deny when the last DM is less than [DM_INTERVAL] old, deny
    when the daily target is reached, else go on.  On 'too soon' it logs
    the minutes left until [lastDMTime + DM_INTERVAL] and returns no
    retry instant.  Step (a) is not part of it: the rate-limit handler is
    neither read nor written.  The monthly-cap check lives in
    [canMakeReadRequest], which rolls its own daily counter first, on
    every call, and only then looks at the cap. *)
Theorem quota_gate_order (env : Agent.Env) (s : Agent.System) :
  let r := Agent.attemptDM_gate env s in
  let sp := Spec.canAct_rest Agent.DMS_PER_DAY_TARGET Agent.DM_INTERVAL
              (Agent.now env) (Agent.today env) (View.quotaView s) in
  View.reasonOfGate (fst r) = Spec.reasonOf (fst sp)
  ∧ View.quotaView (snd r) = snd sp
  ∧ match fst r with
    | Some (Agent.TooSoon minutes) =>
        minutes = roundDiv (Agent.lastDMTime s + Agent.DM_INTERVAL - Agent.now env) 60000
    | _ => True
    end
  ∧ Agent.rateLimiter (snd r) = Agent.rateLimiter s
  ∧ (∀ h, fst (Agent.attemptDM_gate env (View.withRateLimiter h s)) = fst r)
  ∧ ∀ today nowMs h,
      RateLimit.lastResetDate (snd (RateLimit.canMakeReadRequest today nowMs h)) = today
      ∧ RateLimit.dailyReadAttempts (snd (RateLimit.canMakeReadRequest today nowMs h))
        = if bool_decide (RateLimit.lastResetDate h ≠ today) then 0
          else RateLimit.dailyReadAttempts h.
Proof.
  cbv zeta. unfold Agent.attemptDM_gate, Spec.canAct_rest. cbn [fst snd].
  rewrite <- resetDaily_view.
  destruct (resetDaily_frame (Agent.today env) s) as (Hl & _ & Hr & _).
  change (Spec.lastActionTimestamp (View.quotaView ?x)) with (Agent.lastDMTime x).
  change (Spec.dailyCount (View.quotaView ?x)) with (Agent.dailyDMs x).
  rewrite Hl. unfold Agent.quotaGate.
  split; [|split; [|split; [|split; [|split]]]].
  - destruct (_ <? _); [reflexivity|]. destruct (_ <=? _); reflexivity.
  - destruct (_ <? _); [reflexivity|]. destruct (_ <=? _); reflexivity.
  - destruct (_ <? _); [|destruct (_ <=? _); exact I].
    f_equal. lia.
  - exact Hr.
  - intros h. rewrite resetDaily_rateLimiter. reflexivity.
  - intros today nowMs h. unfold RateLimit.canMakeReadRequest.
    assert (H1 : RateLimit.lastResetDate (RateLimit.resetDailyCounterIfNeeded today h) = today
                 ∧ RateLimit.dailyReadAttempts (RateLimit.resetDailyCounterIfNeeded today h)
                   = if bool_decide (RateLimit.lastResetDate h ≠ today) then 0
                     else RateLimit.dailyReadAttempts h).
    { unfold RateLimit.resetDailyCounterIfNeeded.
      case_bool_decide as H; cbn; [auto|]. split; [|reflexivity].
      destruct (decide (RateLimit.lastResetDate h = today)); congruence. }
    destruct H1 as [Hd Hc].
    repeat match goal with
           | |- context [if ?b then _ else _] =>
               lazymatch b with
               | bool_decide _ => fail
               | _ => destruct b
               end
           end; cbn [fst snd RateLimit.lastResetDate RateLimit.dailyReadAttempts];
      auto.
Qed.

(** C1 (as stated) fails.  With the monthly cap recorded and three days
    from lifting, step (a) of [canAct] denies with MonthlyCapExceeded, yet
    the check of [attemptDM] lets the attempt through.  And where the cap
    is checked, in [canMakeReadRequest], the daily counter has already
    been rolled from 7 to 0 when the call is denied for the cap. *)
Lemma quota_gate_order_counterexample :
  let s := Scenario.idle ∅ (Some Scenario.cappedHandler) in
  let env := Scenario.goodEnv (Scenario.t0 * 1000) in
  Spec.reasonOf
    (fst (Spec.canAct Agent.DMS_PER_DAY_TARGET Agent.DM_INTERVAL
            (Agent.now env) (Agent.today env) (View.quotaView s)))
  = Some Spec.MonthlyCapExceeded
  ∧ View.reasonOfGate (fst (Agent.attemptDM_gate env s)) = None
  ∧ fst (RateLimit.canMakeReadRequest "2023-11-14" (Scenario.t0 * 1000)
           Scenario.cappedHandler) = Returned RateLimit.MonthlyCapDenied
  ∧ RateLimit.dailyReadAttempts Scenario.cappedHandler = 7
  ∧ RateLimit.dailyReadAttempts
      (snd (RateLimit.canMakeReadRequest "2023-11-14" (Scenario.t0 * 1000)
              Scenario.cappedHandler)) = 0.
Proof. vm_compute. repeat split; reflexivity. Qed.

(** C7 (the code at the scenario's inputs).  A DM is counted at t = 0.
    Ten minutes later the check of [attemptDM] does not deny: with
    [DM_INTERVAL] at five minutes the attempt goes on to send.  With the
    24 minutes the comment on [DM_INTERVAL] announces, the same check
    denies at ten minutes with 14 minutes left, that is until t = 24 min,
    and lets through at 25 minutes. *)
Theorem five_minute_interval_allows_at_ten_minutes :
  Agent.lastDMTime Scenario.afterActionAtZero = 0
  ∧ Agent.dailyDMs Scenario.afterActionAtZero = 1
  ∧ Agent.DM_INTERVAL = 5 * 60 * 1000
  ∧ fst (Agent.attemptDM_gate (Scenario.epochEnv (10 * 60 * 1000))
           Scenario.afterActionAtZero) = None
  ∧ fst (Agent.attemptDM (Scenario.epochEnv (10 * 60 * 1000))
           Scenario.afterActionAtZero) = Agent.Ran (DmManager.Sent "42")
  ∧ Agent.quotaGate Agent.DM_INTERVAL_documented Agent.DMS_PER_DAY_TARGET
      (10 * 60 * 1000 - 0) 1 = Some (Agent.TooSoon 14)
  ∧ Agent.quotaGate Agent.DM_INTERVAL_documented Agent.DMS_PER_DAY_TARGET
      (25 * 60 * 1000 - 0) 1 = None
  ∧ fst (Agent.attemptDM_gate (Scenario.epochEnv (25 * 60 * 1000))
           Scenario.afterActionAtZero) = None.
Proof. vm_compute. repeat split; reflexivity. Qed.

(** *** The pieces of an attempt, as the event loop runs them *)

Section PieceFacts.
Import DmPlugin DmManager Agent EventLoop.

(** The piece that ends an attempt: the ledger it finds, plus the
    recipient exactly on [Sent]. *)
Lemma resume_effects env u s :
  let r := attemptDM_resume env u s in
  rateLimiter (snd r) = rateLimiter s
  ∧ match fst r with
    | Sent id =>
        id = u_userId u
        ∧ sentDMs (snd r) = <[id := sentAt env]> (sentDMs s)
        ∧ dailyDMs (snd r) = dailyDMs s + 1
        ∧ lastDMTime (snd r) = doneAt env
    | _ => sentDMs (snd r) = sentDMs s
    end.
Proof.
  cbv zeta. unfold attemptDM_resume.
  pose proof (resume_exit (gen env) (dm env) (sentAt env) u (sentDMs s) (disk s)) as Hr.
  cbv zeta in Hr.
  destruct (findAndSendDM_resume _ _ _ _ _ _) as [e [m d]]. cbn [fst snd] in *.
  destruct (recordDM_frame (doneAt env) (withLedger m d s)) as (H1 & H2 & H3 & H4).
  rewrite H1, H2, H3, H4. cbn.
  split; [reflexivity|].
  destruct e; try (injection Hr as -> ->; reflexivity).
  destruct Hr as [-> Hr]. injection Hr as -> ->. auto.
Qed.

(** The piece that starts an attempt: no entry is added, and it waits
    for the network only with a recipient that has no truthy entry. *)
Lemma launch_effects o env st :
  let st' := launch o env st in
  let s1 := resetDailyCounterIfNeeded (today env) (sys st) in
  let loaded := fst (loadSentDMs (sentDMs s1) (disk s1)) in
  rateLimiter (sys st') = rateLimiter (sys st)
  ∧ (sentDMs (sys st') = sentDMs (sys st) ∨ sentDMs (sys st') = loaded)
  ∧ ∀ o' u, inflight st' = (inflight st ++ [(o', u)])%list →
            truthyAt (sentDMs (sys st')) (u_userId u) = false.
Proof.
  cbv zeta. unfold launch, attemptDM_gate.
  destruct (resetDaily_frame (today env) (sys st)) as (_ & Hs & Hr & _).
  set (s1 := resetDailyCounterIfNeeded (today env) (sys st)) in *.
  assert (Hnot : ∀ (l : list (Origin * UserInfo)) x, l = (l ++ [x])%list → False).
  { intros l x Hl. apply (f_equal length) in Hl. rewrite length_app in Hl.
    cbn in Hl. lia. }
  destruct (quotaGate _ _ _ _); cbn [sys inflight].
  - split; [exact Hr|]. split; [left; exact Hs|].
    intros o' u Hl. destruct (Hnot _ _ Hl).
  - unfold attemptDM_try_begin.
    destruct (loadSentDMs (sentDMs s1) (disk s1)) as [loaded d1]. cbn [fst].
    pose proof (begin_exit (targets env) (pick env) loaded) as Hb.
    destruct (findAndSendDM_begin _ _ _) as [e|u]; cbn [sys inflight].
    + destruct (recordDM_frame (doneAt env) (withLedger loaded d1 s1))
        as (H1 & H2 & _).
      rewrite H1, H2. cbn. split; [exact Hr|]. split; [right; reflexivity|].
      intros o' u Hl. destruct (Hnot _ _ Hl).
    + cbn. split; [exact Hr|]. split; [right; reflexivity|].
      intros o' u' Hl. apply app_inv_head in Hl. injection Hl as _ <-. exact Hb.
Qed.

End PieceFacts.

(** C2 (as amended).  An attempt runs as one or two uninterrupted
    pieces, and other attempts may run between the two.  No piece of any
    attempt, and no other request, touches the rate-limit handler, so a
    provider cap error met while sending is not recorded anywhere.  The
    starting piece adds no ledger entry: it leaves the ledger as it was
    when the gate stops it and as [loadSentDMs] loaded it otherwise (the
    same ledger when the file is in step with memory), and it goes on to
    the network only with a recipient that has no truthy entry there.
    The finishing piece adds one entry, the recipient's, to the ledger it
    finds exactly when the attempt ends [Sent], and then the daily count
    goes up by one and [lastDMTime] is set; on any other ending it leaves
    the ledger as it found it.  For an attempt that runs with nothing in
    between: stopped at the gate it leaves the state as the daily roll
    left it; otherwise the ledger is the loaded one, plus the entry of a
    recipient that had no truthy entry exactly when the exit is [Sent]. *)
Theorem attempt_effects (env : Agent.Env) (s : Agent.System) :
  (let r := Agent.attemptDM env s in
   let s1 := Agent.resetDailyCounterIfNeeded (Agent.today env) s in
   let loaded := fst (DmManager.loadSentDMs (Agent.sentDMs s1) (Agent.disk s1)) in
   Agent.rateLimiter (snd r) = Agent.rateLimiter s
   ∧ match fst r with
     | Agent.Gate _ =>
         snd r = s1 ∧ Agent.sentDMs s1 = Agent.sentDMs s
         ∧ Agent.lastDMTime s1 = Agent.lastDMTime s
     | Agent.Ran (DmManager.Sent id) =>
         truthyAt loaded id = false
         ∧ Agent.sentDMs (snd r) = <[id := Agent.sentAt env]> loaded
         ∧ Agent.dailyDMs (snd r) = Agent.dailyDMs s1 + 1
         ∧ Agent.lastDMTime (snd r) = Agent.doneAt env
     | Agent.Ran _ => Agent.sentDMs (snd r) = loaded
     end
   ∧ (sentFile (Agent.disk s) = Holds (Agent.sentDMs s) → loaded = Agent.sentDMs s))
  ∧ ∀ (ev : EventLoop.Event) (st st' : EventLoop.Sched),
      EventLoop.step ev st = Some st' →
      Agent.rateLimiter (EventLoop.sys st') = Agent.rateLimiter (EventLoop.sys st)
      ∧ match ev with
        | EventLoop.NetworkAnswers i env' =>
            ∃ o u e,
              EventLoop.inflight st !! i = Some (o, u)
              ∧ EventLoop.ended st' = (EventLoop.ended st ++ [(o, Agent.Ran e)])%list
              ∧ match e with
                | DmManager.Sent id =>
                    id = DmPlugin.u_userId u
                    ∧ Agent.sentDMs (EventLoop.sys st')
                      = <[id := Agent.sentAt env']> (Agent.sentDMs (EventLoop.sys st))
                    ∧ Agent.dailyDMs (EventLoop.sys st')
                      = Agent.dailyDMs (EventLoop.sys st) + 1
                    ∧ Agent.lastDMTime (EventLoop.sys st') = Agent.doneAt env'
                | _ => Agent.sentDMs (EventLoop.sys st')
                       = Agent.sentDMs (EventLoop.sys st)
                end
        | EventLoop.TimerFires env' | EventLoop.Request _ env' =>
            let s1 := Agent.resetDailyCounterIfNeeded (Agent.today env')
                        (EventLoop.sys st) in
            let loaded :=
              fst (DmManager.loadSentDMs (Agent.sentDMs s1) (Agent.disk s1)) in
            (Agent.sentDMs (EventLoop.sys st') = Agent.sentDMs (EventLoop.sys st)
             ∨ Agent.sentDMs (EventLoop.sys st') = loaded)
            ∧ (sentFile (Agent.disk (EventLoop.sys st))
               = Holds (Agent.sentDMs (EventLoop.sys st)) →
               Agent.sentDMs (EventLoop.sys st') = Agent.sentDMs (EventLoop.sys st))
            ∧ ∀ o u, EventLoop.inflight st'
                     = (EventLoop.inflight st ++ [(o, u)])%list →
                     truthyAt (Agent.sentDMs (EventLoop.sys st'))
                       (DmPlugin.u_userId u) = false
        end.
Proof.
  split.
  - cbv zeta.
    destruct (resetDaily_frame (Agent.today env) s) as (Hl & Hs & Hr & Hf).
    split; [|split].
    + unfold Agent.attemptDM, Agent.attemptDM_gate.
      destruct (Agent.quotaGate _ _ _ _); cbn [fst snd]; [exact Hr|].
      pose proof (try_effects env (Agent.resetDailyCounterIfNeeded (Agent.today env) s))
        as (H1 & _).
      destruct (Agent.attemptDM_try _ _); cbn [fst snd] in *. congruence.
    + unfold Agent.attemptDM, Agent.attemptDM_gate.
      destruct (Agent.quotaGate _ _ _ _); cbn [fst snd]; [auto|].
      pose proof (try_effects env (Agent.resetDailyCounterIfNeeded (Agent.today env) s))
        as (_ & H2 & H3 & H4).
      destruct (Agent.attemptDM_try _ _) as [e s']; cbn [fst snd] in *.
      destruct e; auto. destruct H4; auto.
    + intros H. rewrite Hs. apply loadSentDMs_consistent. rewrite Hf. exact H.
  - assert (Hstart : ∀ o env' (st0 : EventLoop.Sched),
              let st1 := EventLoop.launch o env' st0 in
              let s1 := Agent.resetDailyCounterIfNeeded (Agent.today env')
                          (EventLoop.sys st0) in
              let loaded :=
                fst (DmManager.loadSentDMs (Agent.sentDMs s1) (Agent.disk s1)) in
              Agent.rateLimiter (EventLoop.sys st1) = Agent.rateLimiter (EventLoop.sys st0)
              ∧ (Agent.sentDMs (EventLoop.sys st1) = Agent.sentDMs (EventLoop.sys st0)
                 ∨ Agent.sentDMs (EventLoop.sys st1) = loaded)
              ∧ (sentFile (Agent.disk (EventLoop.sys st0))
                 = Holds (Agent.sentDMs (EventLoop.sys st0)) →
                 Agent.sentDMs (EventLoop.sys st1) = Agent.sentDMs (EventLoop.sys st0))
              ∧ ∀ o' u, EventLoop.inflight st1
                        = (EventLoop.inflight st0 ++ [(o', u)])%list →
                        truthyAt (Agent.sentDMs (EventLoop.sys st1))
                          (DmPlugin.u_userId u) = false).
    { intros o env' st0. cbv zeta.
      destruct (launch_effects o env' st0) as (H1 & H2 & H3). cbv zeta in H2.
      split; [exact H1|]. split; [exact H2|]. split; [|exact H3].
      intros Hin. destruct H2 as [H2|H2]; [exact H2|]. rewrite H2.
      destruct (resetDaily_frame (Agent.today env') (EventLoop.sys st0))
        as (_ & Hs & _ & Hf).
      rewrite Hs. apply loadSentDMs_consistent. rewrite Hf. exact Hin. }
    intros ev st st' Hstep. destruct ev as [env'|url env'|i env']; cbn [EventLoop.step] in Hstep.
    + destruct (EventLoop.timerDue st); [|discriminate].
      injection Hstep as <-.
      apply (Hstart EventLoop.Timer env'
               {| EventLoop.sys := EventLoop.sys st; EventLoop.timerDue := false;
                  EventLoop.inflight := EventLoop.inflight st;
                  EventLoop.ended := EventLoop.ended st |}).
    + case_bool_decide as Hurl.
      * injection Hstep as <-. destruct (Hstart EventLoop.Manual env' st) as (H1 & H2).
        split; [exact H1 | exact H2].
      * injection Hstep as <-. cbn [EventLoop.sys EventLoop.inflight].
        assert (Hsame : Agent.rateLimiter (snd (Agent.server url env' (EventLoop.sys st)))
                        = Agent.rateLimiter (EventLoop.sys st)
                        ∧ Agent.sentDMs (snd (Agent.server url env' (EventLoop.sys st)))
                          = Agent.sentDMs (EventLoop.sys st)).
        { unfold Agent.server. rewrite (bool_decide_eq_false_2 _ Hurl).
          repeat case_bool_decide; cbn; auto. }
        destruct Hsame as [H1 H2]. cbv zeta. rewrite H1, H2.
        split; [reflexivity|]. split; [left; reflexivity|]. split; [reflexivity|].
        intros o u Hl. exfalso. apply (f_equal length) in Hl.
        rewrite length_app in Hl. cbn in Hl. lia.
    + destruct (EventLoop.inflight st !! i) as [[o u]|] eqn:Hi; [|discriminate].
      pose proof (resume_effects env' u (EventLoop.sys st)) as Hr. cbv zeta in Hr.
      destruct (Agent.attemptDM_resume env' u (EventLoop.sys st)) as [e s'].
      injection Hstep as <-. cbn [fst snd EventLoop.sys EventLoop.ended] in *.
      destruct Hr as [H1 H2]. split; [exact H1|].
      exists o, u, e. split; [reflexivity|]. split; [reflexivity|exact H2].
Qed.

Lemma attempt_effects_witness :
  fst (DmManager.loadSentDMs
         (Agent.sentDMs (Agent.resetDailyCounterIfNeeded "2023-11-14"
                           (Scenario.idle ∅ None)))
         (Agent.disk (Agent.resetDailyCounterIfNeeded "2023-11-14"
                        (Scenario.idle ∅ None))))
  = ∅
  ∧ Agent.rateLimiter
      (EventLoop.sys
         (EventLoop.launch EventLoop.Manual (Scenario.capHitEnv (Scenario.t0 * 1000))
            (EventLoop.mkSched (Scenario.idle ∅ (Some Scenario.handler0)) true [] [])))
    = Some Scenario.handler0.
Proof.
  destruct (attempt_effects (Scenario.goodEnv (Scenario.t0 * 1000))
              (Scenario.idle ∅ None)) as [(_ & _ & Hload) Hstep].
  split.
  - apply Hload. reflexivity.
  - apply (Hstep (EventLoop.Request "/send-dm" (Scenario.capHitEnv (Scenario.t0 * 1000)))
             (EventLoop.mkSched (Scenario.idle ∅ (Some Scenario.handler0)) true [] [])).
    reflexivity.
Defined.

(** C2 (as stated) fails.  Twitter rejects the send with the monthly-cap
    error: the attempt ends [SendFailed], yet the daily count went from 3
    to 4 and [lastDMTime] moved; and the handler, which
    [handleTwitterError] would have flagged, is as it was. *)
Lemma attempt_effects_counterexample :
  let s := Scenario.idle ∅ (Some Scenario.handler0) in
  let env := Scenario.capHitEnv (Scenario.t0 * 1000) in
  let r := Agent.attemptDM env s in
  fst r = Agent.Ran DmManager.SendFailed
  ∧ Agent.dailyDMs s = 3 ∧ Agent.dailyDMs (snd r) = 4
  ∧ Agent.lastDMTime s = Scenario.t0 * 1000 - 3600000
  ∧ Agent.lastDMTime (snd r) = Scenario.t0 * 1000 + 2001
  ∧ Agent.rateLimiter (snd r) = Some Scenario.handler0
  ∧ RateLimit.monthlyCapExceeded Scenario.handler0 = false
  ∧ RateLimit.monthlyCapExceeded
      (snd (RateLimit.handleTwitterError
              (Scenario.capError (Some Scenario.resetAt)) Scenario.handler0))
    = true.
Proof. vm_compute. repeat split; reflexivity. Qed.

(** C5 (as amended).  /send-dm answers 200 'DM attempt completed' whatever
    the attempt did, and does to the state exactly what a scheduler run
    does: the same [attemptDM], with its spacing and daily-target checks.
    When the gate denies, only the daily roll has happened.  The
    rate-limit handler plays no part. *)
Theorem send_dm_endpoint_is_attemptDM (env : Agent.Env) (s : Agent.System) :
  let r := Agent.server "/send-dm" env s in
  fst r = {| Agent.statusCode := 200; Agent.body := Agent.AttemptCompleted |}
  ∧ snd r = Agent.runScheduler env s
  ∧ match fst (Agent.attemptDM_gate env s) with
    | Some _ => snd r = Agent.resetDailyCounterIfNeeded (Agent.today env) s
    | None => snd r = snd (Agent.attemptDM_try env
                             (Agent.resetDailyCounterIfNeeded (Agent.today env) s))
    end
  ∧ ∀ h, Agent.server "/send-dm" env (View.withRateLimiter h s)
         = (fst r, View.withRateLimiter h (snd r)).
Proof.
  cbv zeta. change (Agent.server "/send-dm" env s) with (Agent.handleSendDm env s).
  unfold Agent.handleSendDm, Agent.runScheduler. cbn [fst snd].
  split; [reflexivity|]. split; [reflexivity|]. split.
  - unfold Agent.attemptDM, Agent.attemptDM_gate. cbn [fst snd].
    destruct (Agent.quotaGate _ _ _ _); cbn [fst snd]; [reflexivity|].
    destruct (Agent.attemptDM_try _ _); reflexivity.
  - intros h.
    change (Agent.server "/send-dm" env (View.withRateLimiter h s))
      with (Agent.handleSendDm env (View.withRateLimiter h s)).
    unfold Agent.handleSendDm. rewrite attemptDM_rateLimiter. reflexivity.
Qed.

(** C5 (as stated) fails.  One minute after a DM, with no cap recorded,
    /send-dm is stopped by the spacing check and changes nothing, where
    the design's trigger would have sent.  With the monthly cap recorded
    and not yet lifted, /send-dm sends all the same.  Both answers are
    the same fixed text. *)
Lemma manual_trigger_counterexample :
  let env := Scenario.goodEnv (Scenario.t0 * 1000) in
  let s := Scenario.justSent ∅ in
  let capped := Scenario.idle ∅ (Some Scenario.cappedHandler) in
  fst (Agent.attemptDM env s) = Agent.Gate (Agent.TooSoon 4)
  ∧ snd (Agent.server "/send-dm" env s) = s
  ∧ fst (Spec.trigger (View.monthlyDenies (Agent.now env) s)
           (Agent.attemptDM_try env) s) = Some (DmManager.Sent "42")
  ∧ View.monthlyDenies (Agent.now env) capped = true
  ∧ fst (Agent.attemptDM env capped) = Agent.Ran (DmManager.Sent "42")
  ∧ fst (Spec.trigger (View.monthlyDenies (Agent.now env) capped)
           (Agent.attemptDM_try env) capped) = None
  ∧ fst (Agent.server "/send-dm" env s) = fst (Agent.server "/send-dm" env capped).
Proof. vm_compute. repeat split; reflexivity. Qed.




(** ** The event loop *)

Section EventLoopFacts.
Import DmPlugin DmManager Agent EventLoop.







End EventLoopFacts.




(** * Further properties of the code *)

(** ** Persistence *)

Section PersistenceFacts.
Import DmManager Agent.

Lemma saveState_disk_flags s :
  writable (disk (saveState s)) = writable (disk s)
  ∧ (dirExists (disk s) = true → dirExists (disk (saveState s)) = true).
Proof.
  unfold saveState, withDisk, mkdirSync, writeState. cbn [disk].
  destruct (disk s) as [de w sf lf]; cbn.
  destruct de, w; cbn; auto.
Qed.

Lemma saveState_holds s :
  writable (disk s) = true →
  stateFile (disk (saveState s))
  = Holds {| j_lastDMTime := Some (lastDMTime s);
             j_dailyDMs := Some (dailyDMs s);
             j_lastResetDate := Some (lastResetDate s) |}.
Proof.
  unfold saveState, withDisk, mkdirSync, writeState. cbn [disk].
  destruct (disk s) as [de w sf lf]; cbn. intros ->.
  destruct de; reflexivity.
Qed.

End PersistenceFacts.

(** X1.  What [saveState] wrote is what a restarted process reads: after
    a save on a disk that takes writes, [main] on that disk starts the
    scheduler with the same [lastDMTime], [dailyDMs] and [lastResetDate]. *)
Theorem state_survives_restart (s : Agent.System) :
  writable (Agent.disk s) = true →
  ∃ s', Agent.main (Agent.disk (Agent.saveState s)) = Some s'
        ∧ Agent.lastDMTime s' = Agent.lastDMTime s
        ∧ Agent.dailyDMs s' = Agent.dailyDMs s
        ∧ Agent.lastResetDate s' = Agent.lastResetDate s.
Proof.
  intros Hw. pose proof (saveState_holds s Hw) as Hf.
  unfold Agent.main, Agent.loadState, Agent.loadState_try.
  cbn [Agent.boot Agent.disk Agent.initializeDMManager].
  rewrite Hf. cbn. eexists. split; [reflexivity|].
  cbn. repeat split; reflexivity.
Qed.

Lemma state_survives_restart_witness :
  ∃ s', Agent.main (Agent.disk (Agent.saveState (Scenario.justSent ∅))) = Some s'
        ∧ Agent.lastDMTime s' = Agent.lastDMTime (Scenario.justSent ∅)
        ∧ Agent.dailyDMs s' = Agent.dailyDMs (Scenario.justSent ∅)
        ∧ Agent.lastResetDate s' = Agent.lastResetDate (Scenario.justSent ∅).
Proof.
  apply (state_survives_restart (Scenario.justSent ∅)). reflexivity.
Defined.

(** X2.  On a disk that refuses writes [saveState] swallows the error
    and changes nothing at all; so a DM counted by [recordDM] is counted
    in memory only, and the state file still holds what it held. *)
Theorem failed_save_is_silent (t : Z) (s : Agent.System) :
  writable (Agent.disk s) = false →
  Agent.saveState s = s
  ∧ Agent.dailyDMs (Agent.recordDM t s) = Agent.dailyDMs s + 1
  ∧ Agent.lastDMTime (Agent.recordDM t s) = t
  ∧ Agent.disk (Agent.recordDM t s) = Agent.disk s.
Proof.
  intros Hw.
  assert (H : ∀ x, writable (Agent.disk x) = false → Agent.saveState x = x).
  { intros x Hx. unfold Agent.saveState, Agent.withDisk, mkdirSync, writeState.
    destruct x as [a b c m r [de w sf lf]]; cbn in *. subst w.
    destruct de; reflexivity. }
  split; [apply H, Hw|].
  unfold Agent.recordDM. rewrite H by exact Hw. cbn. auto.
Qed.

Lemma failed_save_is_silent_witness :
  Agent.saveState (Agent.boot (mkDisk true false Missing Missing))
  = Agent.boot (mkDisk true false Missing Missing).
Proof.
  apply (failed_save_is_silent 0 (Agent.boot (mkDisk true false Missing Missing))).
  reflexivity.
Defined.

(** X3.  The ledger file round-trips: what [saveSentDMs] wrote on a
    disk that takes writes is what the next [loadSentDMs] puts in memory,
    whatever was in memory before, and the load leaves the disk alone. *)
Theorem ledger_survives_restart (m stale : gmap string Z) (d : Disk) :
  writable d = true → dirExists d = true →
  DmManager.loadSentDMs stale (DmManager.saveSentDMs m d)
  = (m, DmManager.saveSentDMs m d).
Proof.
  intros Hw Hd. unfold DmManager.saveSentDMs, writeSent, DmManager.loadSentDMs.
  rewrite Hw, Hd. reflexivity.
Qed.

Lemma ledger_survives_restart_witness :
  DmManager.loadSentDMs ∅ (DmManager.saveSentDMs {["42" := 1700000002000]}
                              Scenario.emptyDisk)
  = ({["42" := 1700000002000]},
     DmManager.saveSentDMs {["42" := 1700000002000]} Scenario.emptyDisk).
Proof.
  apply (ledger_survives_restart {["42" := 1700000002000]} ∅ Scenario.emptyDisk);
    reflexivity.
Defined.

(** X4.  When sent_dms.json does not exist and the disk takes writes,
    [loadSentDMs] keeps the ledger in memory, creates the directory and
    the file with that ledger, and a second load changes nothing more. *)
Theorem first_load_creates_the_ledger_file (m : gmap string Z) (d : Disk) :
  sentFile d = Missing → writable d = true →
  let r := DmManager.loadSentDMs m d in
  fst r = m
  ∧ sentFile (snd r) = Holds m
  ∧ dirExists (snd r) = true
  ∧ DmManager.loadSentDMs m (snd r) = r.
Proof.
  intros Hf Hw. cbv zeta.
  unfold DmManager.loadSentDMs, DmManager.ensureDirExists, mkdirSync,
    DmManager.saveSentDMs, writeSent.
  rewrite Hf. cbn [existsSync]. destruct d as [de w sf lf]; cbn in *. subst.
  destruct de; cbn; repeat split; reflexivity.
Qed.

Lemma first_load_creates_the_ledger_file_witness :
  sentFile (snd (DmManager.loadSentDMs ∅ (mkDisk false true Missing Missing)))
  = Holds ∅.
Proof.
  apply (first_load_creates_the_ledger_file ∅ (mkDisk false true Missing Missing));
    reflexivity.
Defined.

(** X5.  The daily roll is idempotent: a second
    [resetDailyCounterIfNeeded] on the same date changes nothing, in the
    entry point and in the rate-limit handler alike, and after either the
    stored date is today's. *)
Theorem daily_roll_is_idempotent (today : string)
    (s : Agent.System) (h : RateLimit.Handler) :
  Agent.resetDailyCounterIfNeeded today (Agent.resetDailyCounterIfNeeded today s)
  = Agent.resetDailyCounterIfNeeded today s
  ∧ Agent.lastResetDate (Agent.resetDailyCounterIfNeeded today s) = today
  ∧ RateLimit.resetDailyCounterIfNeeded today
      (RateLimit.resetDailyCounterIfNeeded today h)
    = RateLimit.resetDailyCounterIfNeeded today h
  ∧ RateLimit.lastResetDate (RateLimit.resetDailyCounterIfNeeded today h) = today.
Proof.
  assert (Ha : Agent.lastResetDate (Agent.resetDailyCounterIfNeeded today s) = today)
    by apply resetDaily_count.
  assert (Hr : RateLimit.lastResetDate (RateLimit.resetDailyCounterIfNeeded today h)
               = today).
  { unfold RateLimit.resetDailyCounterIfNeeded. case_bool_decide as H; cbn; [reflexivity|].
    destruct (decide (RateLimit.lastResetDate h = today)); congruence. }
  split; [|split; [exact Ha|split; [|exact Hr]]].
  - unfold Agent.resetDailyCounterIfNeeded at 1. rewrite Ha.
    case_bool_decide; [congruence | reflexivity].
  - unfold RateLimit.resetDailyCounterIfNeeded at 1. rewrite Hr.
    case_bool_decide; [congruence | reflexivity].
Qed.

(** ** The rate-limit handler, beyond the monthly cap *)

Section HandlerFacts.
Import RateLimit.

Lemma parse_flag_iff e :
  isMonthlyCapExceeded (parseTwitterError e) = true ↔
  code e = Some 429
  ∧ ∃ d, data e = Some d
         ∧ title d = Some "UsageCapExceeded"
         ∧ (∃ t, detail d = Some t ∧ includes "Monthly product cap" t = true)
         ∧ type d = Some "https://api.twitter.com/2/problems/usage-capped".
Proof.
  unfold parseTwitterError. split.
  - destruct (code e) as [c|] eqn:Hc; [|discriminate].
    destruct (decide (c = 429)) as [->|Hne].
    + destruct (data e) as [d|]; [|discriminate].
      destruct (bool_decide (title d = _)) eqn:Ht; [|discriminate].
      destruct (detail d) as [t|] eqn:Hd; cbn; [|discriminate].
      destruct (includes _ t) eqn:Hi; cbn; [|discriminate].
      destruct (bool_decide (type d = _)) eqn:Hy; cbn; [|discriminate].
      intros _. split; [reflexivity|]. exists d.
      apply bool_decide_eq_true in Ht, Hy. eauto 10.
    + intros H. exfalso.
      destruct c as [|p|p]; try discriminate;
        repeat (destruct p as [p|p|]; try discriminate). congruence.
  - intros (Hc & d & Hd & Ht & (t & Hdt & Hi) & Hy).
    rewrite Hc, Hd, Ht, Hdt, Hy. cbn. rewrite Hi.
    rewrite !bool_decide_eq_true_2 by reflexivity. reflexivity.
Qed.

Lemma iter_increment k h :
  Nat.iter k incrementReadAttempts h
  = mkHandler (monthlyCapExceeded h) (monthlyCapResetTime h)
      (dailyReadAttempts h + Z.of_nat k) (lastResetDate h) (maxDailyReadAttempts h).
Proof.
  induction k as [|k IH].
  - cbn. destruct h; cbn. f_equal. lia.
  - rewrite Nat.iter_succ, IH. unfold incrementReadAttempts. cbn. f_equal. lia.
Qed.

Lemma canMake_uncapped today nowMs h :
  monthlyCapExceeded h = false →
  canMakeReadRequest today nowMs h
  = (Returned (if maxDailyReadAttempts h
                  <=? dailyReadAttempts (resetDailyCounterIfNeeded today h)
               then DailyLimitDenied else ReadAllowed),
     resetDailyCounterIfNeeded today h).
Proof.
  intros Hc. unfold canMakeReadRequest.
  assert (H1 : monthlyCapExceeded (resetDailyCounterIfNeeded today h) = false
               ∧ maxDailyReadAttempts (resetDailyCounterIfNeeded today h)
                 = maxDailyReadAttempts h).
  { unfold resetDailyCounterIfNeeded. case_bool_decide; cbn; auto. }
  destruct H1 as [-> ->]. destruct (_ <=? _); reflexivity.
Qed.

End HandlerFacts.

(** X6.  [parseTwitterError] flags an error exactly when its code is 429
    and its data carries the title 'UsageCapExceeded', a detail that
    mentions 'Monthly product cap' and the usage-capped problem type;
    for every other error [handleTwitterError] returns normally and
    leaves the handler as it was. *)
Theorem only_usage_cap_errors_are_recorded
    (e : RateLimit.TwitterError) (h : RateLimit.Handler) :
  (RateLimit.isMonthlyCapExceeded (RateLimit.parseTwitterError e) = true ↔
   RateLimit.code e = Some 429
   ∧ ∃ d, RateLimit.data e = Some d
          ∧ RateLimit.title d = Some "UsageCapExceeded"
          ∧ (∃ t, RateLimit.detail d = Some t
                  ∧ includes "Monthly product cap" t = true)
          ∧ RateLimit.type d
            = Some "https://api.twitter.com/2/problems/usage-capped")
  ∧ (RateLimit.isMonthlyCapExceeded (RateLimit.parseTwitterError e) = false →
     RateLimit.handleTwitterError e h = (Returned tt, h)).
Proof.
  split; [apply parse_flag_iff|].
  intros H. unfold RateLimit.handleTwitterError. rewrite H. reflexivity.
Qed.

Lemma only_usage_cap_errors_are_recorded_witness :
  RateLimit.handleTwitterError
    {| RateLimit.code := Some 429; RateLimit.data := None;
       RateLimit.rateLimit := Some {| RateLimit.reset := Some Scenario.resetAt |} |}
    Scenario.handler0
  = (Returned tt, Scenario.handler0).
Proof.
  apply (only_usage_cap_errors_are_recorded
           {| RateLimit.code := Some 429; RateLimit.data := None;
              RateLimit.rateLimit :=
                Some {| RateLimit.reset := Some Scenario.resetAt |} |}
           Scenario.handler0).
  reflexivity.
Defined.

(** X7.  [canMakeReadRequest] never records a cap and never consumes
    budget: if the flag is set afterwards it was set before, with the same
    reset time, and the clock is still short of it; the daily maximum is
    untouched; the daily counter is either as before or rolled to 0; and
    the stored date is today's. *)
Theorem canMake_only_clears (today : string) (nowMs : Z) (h : RateLimit.Handler) :
  let h' := snd (RateLimit.canMakeReadRequest today nowMs h) in
  (RateLimit.monthlyCapExceeded h' = true →
     RateLimit.monthlyCapExceeded h = true
     ∧ RateLimit.monthlyCapResetTime h' = RateLimit.monthlyCapResetTime h
     ∧ nowMs < RateLimit.monthlyCapResetTime h * 1000)
  ∧ RateLimit.maxDailyReadAttempts h' = RateLimit.maxDailyReadAttempts h
  ∧ (RateLimit.dailyReadAttempts h' = RateLimit.dailyReadAttempts h
     ∨ RateLimit.dailyReadAttempts h' = 0)
  ∧ RateLimit.lastResetDate h' = today.
Proof.
  cbv zeta. unfold RateLimit.canMakeReadRequest.
  set (h1 := RateLimit.resetDailyCounterIfNeeded today h).
  assert (H1 : RateLimit.monthlyCapExceeded h1 = RateLimit.monthlyCapExceeded h
               ∧ RateLimit.monthlyCapResetTime h1 = RateLimit.monthlyCapResetTime h
               ∧ RateLimit.maxDailyReadAttempts h1 = RateLimit.maxDailyReadAttempts h
               ∧ (RateLimit.dailyReadAttempts h1 = RateLimit.dailyReadAttempts h
                  ∨ RateLimit.dailyReadAttempts h1 = 0)
               ∧ RateLimit.lastResetDate h1 = today).
  { unfold h1, RateLimit.resetDailyCounterIfNeeded.
    case_bool_decide as H; cbn; [auto 10|].
    split; [reflexivity|]. split; [reflexivity|]. split; [reflexivity|].
    split; [left; reflexivity|].
    destruct (decide (RateLimit.lastResetDate h = today)); congruence. }
  destruct H1 as (Hf & Ht & Hm & Hc & Hd).
  destruct (RateLimit.monthlyCapExceeded h1) eqn:Hcap.
  - destruct (floorDiv nowMs 1000 <? RateLimit.monthlyCapResetTime h1) eqn:Hlt.
    + apply Z.ltb_lt, seconds_before in Hlt.
      destruct (validDate _); cbn [snd]; rewrite Hcap;
        (split; [intros _; split; [congruence | split; [exact Ht | lia]] | auto]).
    + destruct (_ <=? _); cbn; (split; [discriminate | auto]).
  - destruct (_ <=? _); cbn [snd]; rewrite Hcap; (split; [discriminate | auto]).
Qed.

Lemma canMake_only_clears_witness :
  RateLimit.monthlyCapExceeded Scenario.cappedHandler = true
  ∧ RateLimit.monthlyCapResetTime
      (snd (RateLimit.canMakeReadRequest "2023-11-14" (Scenario.t0 * 1000)
              Scenario.cappedHandler))
    = RateLimit.monthlyCapResetTime Scenario.cappedHandler
  ∧ Scenario.t0 * 1000 < RateLimit.monthlyCapResetTime Scenario.cappedHandler * 1000.
Proof.
  apply (canMake_only_clears "2023-11-14" (Scenario.t0 * 1000) Scenario.cappedHandler).
  reflexivity.
Defined.

(** X8.  The daily read budget.  With no cap recorded, after [k] calls of
    [incrementReadAttempts] on the date the handler has stored,
    [canMakeReadRequest] allows exactly while the attempts counted so far
    stay below [maxDailyReadAttempts]. *)
Theorem read_budget_is_the_daily_maximum
    (k : nat) (today : string) (nowMs : Z) (h : RateLimit.Handler) :
  RateLimit.monthlyCapExceeded h = false →
  RateLimit.lastResetDate h = today →
  fst (RateLimit.canMakeReadRequest today nowMs
         (Nat.iter k RateLimit.incrementReadAttempts h))
  = Returned (if RateLimit.dailyReadAttempts h + Z.of_nat k
                 <? RateLimit.maxDailyReadAttempts h
              then RateLimit.ReadAllowed else RateLimit.DailyLimitDenied).
Proof.
  intros Hc Hd. rewrite iter_increment.
  rewrite canMake_uncapped by exact Hc. cbn [fst].
  unfold RateLimit.resetDailyCounterIfNeeded. cbn.
  rewrite bool_decide_eq_false_2 by (intros H; apply H; exact Hd). cbn.
  destruct (_ <=? _) eqn:E1, (_ <? _) eqn:E2; try reflexivity;
    [apply Z.leb_le in E1; apply Z.ltb_lt in E2 | apply Z.leb_gt in E1; apply Z.ltb_ge in E2];
    lia.
Qed.

Lemma read_budget_is_the_daily_maximum_witness :
  fst (RateLimit.canMakeReadRequest "2023-11-13" (Scenario.t0 * 1000)
         (Nat.iter 43 RateLimit.incrementReadAttempts Scenario.handler0))
  = Returned RateLimit.DailyLimitDenied.
Proof.
  apply (read_budget_is_the_daily_maximum 43 "2023-11-13" (Scenario.t0 * 1000)
           Scenario.handler0); reflexivity.
Defined.

(** X9.  A new date gives the budget back: with no cap recorded and a
    positive daily maximum, the first [canMakeReadRequest] on a date other
    than the stored one is allowed and restarts the count at 0, however
    many attempts were counted before. *)
Theorem new_date_restores_read_budget
    (today : string) (nowMs : Z) (h : RateLimit.Handler) :
  RateLimit.monthlyCapExceeded h = false →
  RateLimit.lastResetDate h ≠ today →
  0 < RateLimit.maxDailyReadAttempts h →
  RateLimit.canMakeReadRequest today nowMs h
  = (Returned RateLimit.ReadAllowed,
     RateLimit.mkHandler false (RateLimit.monthlyCapResetTime h) 0 today
       (RateLimit.maxDailyReadAttempts h)).
Proof.
  intros Hc Hd Hm. rewrite canMake_uncapped by exact Hc.
  unfold RateLimit.resetDailyCounterIfNeeded.
  rewrite bool_decide_eq_true_2 by exact Hd. cbn. rewrite Hc.
  destruct (_ <=? 0) eqn:E; [apply Z.leb_le in E; lia | reflexivity].
Qed.

Lemma new_date_restores_read_budget_witness :
  RateLimit.canMakeReadRequest "2023-11-14" (Scenario.t0 * 1000)
    (Nat.iter 60 RateLimit.incrementReadAttempts Scenario.handler0)
  = (Returned RateLimit.ReadAllowed, RateLimit.mkHandler false 0 0 "2023-11-14" 50).
Proof.
  apply (new_date_restores_read_budget "2023-11-14" (Scenario.t0 * 1000)
           (Nat.iter 60 RateLimit.incrementReadAttempts Scenario.handler0)).
  - reflexivity.
  - vm_compute. intros H. discriminate H.
  - vm_compute. reflexivity.
Defined.

(** ** The DM worker and one campaign *)

Section WorkerFacts.
Import DmPlugin DmManager.

(** [.length] counts UTF-16 code units, not bytes and not characters. *)
Example utf16Length_examples :
  utf16Length "hello" = 5%nat
  ∧ utf16Length "é" = 1%nat
  ∧ utf16Length "€" = 1%nat
  ∧ utf16Length "😀" = 2%nat
  ∧ utf16Length "hi😀😀ok" = 8%nat
  ∧ String.length "hi😀😀ok" = 12%nat.
Proof. repeat split; reflexivity. Qed.

(** Eight code units in twelve bytes are too short to send. *)
Example short_text_with_emoji_is_invalid :
  fst (findAndSendDM (Holds [Scenario.alice]) 0 (GenContent (Some "hi😀😀ok"))
         DmData 1700000002000 ∅ Scenario.emptyDisk)
  = InvalidContent.
Proof. reflexivity. Qed.

Lemma send_dm_done user_id text dm :
  status (send_dm user_id text dm) = Done ↔
  user_id ≠ "" ∧ 10 ≤ Z.of_nat (utf16Length text) ≤ 10000 ∧ dm = DmData.
Proof.
  unfold send_dm. split.
  - case_bool_decide as Hu; [discriminate|].
    case_bool_decide as Ht; [discriminate|].
    destruct (_ || _) eqn:Hl; [discriminate|].
    apply orb_false_iff in Hl. destruct Hl as [H1 H2].
    apply Z.ltb_ge in H1, H2.
    destruct dm; try discriminate. intros _. split; [exact Hu|]. split; [lia|reflexivity].
  - intros (Hu & [H1 H2] & ->).
    rewrite bool_decide_eq_false_2 by exact Hu.
    case_bool_decide as Ht; [subst text; cbn in H1; lia|].
    assert (Hl : (Z.of_nat (utf16Length text) <? 10)
                 || (10000 <? Z.of_nat (utf16Length text)) = false).
    { apply orb_false_iff. split; apply Z.ltb_ge; lia. }
    rewrite Hl. reflexivity.
Qed.

Lemma find_target_user_done targets pick u :
  find_target_user targets pick = {| status := Done; feedback := UserJson u |} →
  ∃ users t, targets = Holds users ∧ users !! pick = Some t
             ∧ u_userId u = userId t ∧ u_username u = username t
             ∧ u_context u ≠ "".
Proof.
  unfold find_target_user.
  destruct targets as [| |users]; cbn; try discriminate.
  case_bool_decide as He; [discriminate|].
  destruct (users !! pick) as [t|] eqn:Hp; [|discriminate].
  intros H. injection H as <-. exists users, t. cbn.
  repeat split; auto.
  destruct (context t) as [[|c cs]|]; cbn; discriminate.
Qed.

Lemma find_target_user_shape targets pick :
  match status (find_target_user targets pick),
        feedback (find_target_user targets pick) with
  | Done, Message _ => False
  | _, _ => True
  end.
Proof.
  unfold find_target_user.
  destruct targets as [| |users]; cbn; auto.
  case_bool_decide; cbn; auto.
  destruct (users !! pick); cbn; auto.
Qed.

(** How [findAndSendDM] leaves ledger and disk, by exit. *)
Lemma findAndSendDM_cases targets pick gen dm sentAt (m : gmap string Z) d :
  let r := findAndSendDM targets pick gen dm sentAt m d in
  match fst r with
  | Sent id =>
      truthyAt m id = false
      ∧ snd r = (<[id := sentAt]> m, saveSentDMs (<[id := sentAt]> m) d)
  | _ => snd r = (m, d)
  end.
Proof.
  cbv zeta. unfold findAndSendDM.
  pose proof (begin_exit targets pick m) as Hb.
  destruct (findAndSendDM_begin targets pick m) as [e|u].
  - destruct e; cbn; auto. contradiction.
  - pose proof (resume_exit gen dm sentAt u m d) as Hr. cbv zeta in Hr.
    destruct (findAndSendDM_resume _ _ _ _ _ _) as [e md].
    cbn [fst snd] in *. destruct e; auto. destruct Hr as [-> Hr]. auto.
Qed.

End WorkerFacts.

(** X10.  [find_target_user] answers 'done' only with an entry of the
    target list, the one at the picked index, and always with a
    non-empty context; with no file, an unreadable file or an empty list
    it answers 'failed'. *)
Theorem found_user_is_a_listed_target
    (targets : File (list DmPlugin.TargetUser)) (pick : nat) :
  let r := DmPlugin.find_target_user targets pick in
  (DmPlugin.status r = DmPlugin.Done →
   ∃ users t u, targets = Holds users ∧ users !! pick = Some t
                ∧ DmPlugin.feedback r = DmPlugin.UserJson u
                ∧ DmPlugin.u_userId u = DmPlugin.userId t
                ∧ DmPlugin.u_username u = DmPlugin.username t
                ∧ DmPlugin.u_context u ≠ "")
  ∧ (targets = Missing ∨ targets = Corrupt ∨ targets = Holds [] →
     DmPlugin.status r = DmPlugin.Failed).
Proof.
  cbv zeta. split.
  - intros Hs. pose proof (find_target_user_shape targets pick) as Hsh.
    destruct (DmPlugin.find_target_user targets pick) as [st fb] eqn:Hr.
    cbn in Hs, Hsh. subst st. destruct fb as [msg|u]; [contradiction|].
    destruct (find_target_user_done targets pick u Hr) as (users & t & H).
    exists users, t, u. cbn. tauto.
  - intros [->|[->| ->]]; reflexivity.
Qed.

Lemma found_user_is_a_listed_target_witness :
  DmPlugin.status (DmPlugin.find_target_user Corrupt 0) = DmPlugin.Failed.
Proof.
  apply (found_user_is_a_listed_target Corrupt 0). right; left; reflexivity.
Defined.

(** X11.  [send_dm] reports 'done' exactly when the user id is not
    empty, the [.length] of the text (in UTF-16 code units) is between 10
    and 10000, and Twitter resolved the call with data; a rejected call,
    whatever its error, becomes a 'failed' response, never an
    exception. *)
Theorem send_dm_done_iff
    (user_id text : string) (dm : DmPlugin.DmResult) :
  DmPlugin.status (DmPlugin.send_dm user_id text dm) = DmPlugin.Done ↔
  user_id ≠ "" ∧ 10 ≤ Z.of_nat (utf16Length text) ≤ 10000 ∧ dm = DmPlugin.DmData.
Proof. apply send_dm_done. Qed.

Lemma send_dm_done_iff_witness :
  DmPlugin.status (DmPlugin.send_dm "42" Scenario.greeting DmPlugin.DmData)
  = DmPlugin.Done.
Proof.
  apply (send_dm_done_iff "42" Scenario.greeting DmPlugin.DmData).
  split; [discriminate|]. split; [vm_compute; split; discriminate | reflexivity].
Defined.

(** X12.  A [Sent] exit of [findAndSendDM] means the DM really went out:
    the recipient is the picked entry of the target list and has a
    non-empty id, had no truthy ledger entry, the generated text has a
    [.length] (in UTF-16 code units) between 10 and 10000, and Twitter
    resolved with data. *)
Theorem sent_means_delivered
    (targets : File (list DmPlugin.TargetUser)) (pick : nat)
    (gen : DmManager.GenResult) (dm : DmPlugin.DmResult) (sentAt : Z)
    (m : gmap string Z) (d : Disk) (id : string) :
  fst (DmManager.findAndSendDM targets pick gen dm sentAt m d) = DmManager.Sent id →
  dm = DmPlugin.DmData
  ∧ (∃ text, gen = DmManager.GenContent (Some text)
             ∧ 10 ≤ Z.of_nat (utf16Length text) ≤ 10000)
  ∧ (∃ users t, targets = Holds users ∧ users !! pick = Some t
                ∧ DmPlugin.userId t = id)
  ∧ id ≠ ""
  ∧ truthyAt m id = false.
Proof.
  unfold DmManager.findAndSendDM, DmManager.findAndSendDM_begin.
  destruct (DmPlugin.find_target_user targets pick) as [st fb] eqn:Hf.
  cbn [DmPlugin.status DmPlugin.feedback].
  destruct st; [|destruct fb; cbn; discriminate].
  destruct fb as [msg|u]; [cbn; discriminate|].
  destruct (find_target_user_done targets pick u Hf)
    as (users & t & Ht & Hp & Hid & _ & _).
  destruct (truthyAt m (DmPlugin.u_userId u)) eqn:Htr; [cbn; discriminate|].
  unfold DmManager.findAndSendDM_resume.
  destruct gen as [|content]; [cbn; discriminate|].
  destruct (Z.of_nat (utf16Length (orEmpty content)) <? 10) eqn:Hl;
    [cbn; discriminate|].
  destruct (DmPlugin.status (DmPlugin.send_dm _ _ dm)) eqn:Hs; [|cbn; discriminate].
  cbn [fst]. intros H. injection H as <-.
  apply send_dm_done in Hs. destruct Hs as (Hne & Hlen & ->).
  split; [reflexivity|]. split.
  - destruct content as [text|]; [exists text; auto|].
    cbn in Hlen. lia.
  - split; [exists users, t; rewrite Hid in *; auto|]. auto.
Qed.

Lemma sent_means_delivered_witness :
  DmPlugin.DmData = DmPlugin.DmData
  ∧ (∃ text, DmManager.GenContent (Some Scenario.greeting)
             = DmManager.GenContent (Some text)
             ∧ 10 ≤ Z.of_nat (utf16Length text) ≤ 10000)
  ∧ (∃ users t, Holds [Scenario.alice] = Holds users ∧ users !! 0%nat = Some t
                ∧ DmPlugin.userId t = "42")
  ∧ "42" ≠ ""
  ∧ truthyAt (∅ : gmap string Z) "42" = false.
Proof.
  apply (sent_means_delivered (Holds [Scenario.alice]) 0
           (DmManager.GenContent (Some Scenario.greeting)) DmPlugin.DmData
           1700000002000 ∅ Scenario.emptyDisk "42").
  vm_compute. reflexivity.
Defined.

(** ** Attempts one after the other *)

Section RunFacts.
Import DmManager Agent Runs.

Lemma gate_none env s :
  fst (attemptDM_gate env s) = None →
  DM_INTERVAL <= now env - lastDMTime s
  ∧ dailyDMs (resetDailyCounterIfNeeded (today env) s) < DMS_PER_DAY_TARGET.
Proof.
  unfold attemptDM_gate, quotaGate. cbn [fst].
  destruct (_ <? _) eqn:E1; [discriminate|].
  destruct (_ <=? _) eqn:E2; [discriminate|].
  apply Z.ltb_ge in E1. apply Z.leb_gt in E2. auto.
Qed.

(** One attempt, by outcome: what it did to the counters. *)
Lemma attemptDM_counters env s :
  let r := attemptDM env s in
  let s1 := resetDailyCounterIfNeeded (today env) s in
  match fst r with
  | Gate _ => snd r = s1
  | Ran _ => DM_INTERVAL <= now env - lastDMTime s
             ∧ dailyDMs s1 < DMS_PER_DAY_TARGET
             ∧ dailyDMs (snd r) = dailyDMs s1 + 1
             ∧ lastDMTime (snd r) = doneAt env
  end.
Proof.
  cbv zeta. unfold attemptDM.
  pose proof (gate_none env s) as Hg.
  unfold attemptDM_gate in *. cbn [fst snd] in *.
  destruct (quotaGate _ _ _ _); cbn [fst snd]; [reflexivity|].
  destruct (Hg eq_refl) as [H1 H2].
  pose proof (try_effects env (resetDailyCounterIfNeeded (today env) s))
    as (_ & H3 & H4 & _).
  destruct (attemptDM_try _ _); cbn [fst snd] in *. auto.
Qed.

Lemma attemptDM_bound env s :
  0 <= dailyDMs s <= DMS_PER_DAY_TARGET →
  0 <= dailyDMs (snd (attemptDM env s)) <= DMS_PER_DAY_TARGET.
Proof.
  intros Hb. pose proof (attemptDM_counters env s) as H. cbv zeta in H.
  destruct (resetDaily_count (today env) s) as [Hc _].
  assert (H0 : 0 <= dailyDMs (resetDailyCounterIfNeeded (today env) s)
               <= DMS_PER_DAY_TARGET).
  { rewrite Hc. case_bool_decide; [unfold DMS_PER_DAY_TARGET; lia | exact Hb]. }
  destruct (fst (attemptDM env s)).
  - rewrite H. exact H0.
  - destruct H as (_ & H2 & H3 & _). lia.
Qed.

Lemma attempts_cons env envs s :
  attempts (env :: envs) s
  = (fst (attemptDM env s) :: fst (attempts envs (snd (attemptDM env s))),
     snd (attempts envs (snd (attemptDM env s)))).
Proof.
  cbn [attempts]. destruct (attemptDM env s) as [o s1]. cbn [fst snd].
  destruct (attempts envs s1). reflexivity.
Qed.

Lemma saveState_inStep s : inStep s → inStep (saveState s).
Proof.
  unfold inStep. intros (Hw & Hd & Hf).
  destruct (saveState_disk_flags s) as [H1 H2].
  destruct (saveState_quota s) as (_ & _ & _ & H4 & _).
  rewrite H1, saveState_sentFile, H4. auto.
Qed.

Lemma resetDaily_inStep today s :
  inStep s → inStep (resetDailyCounterIfNeeded today s).
Proof.
  intros H. unfold resetDailyCounterIfNeeded. case_bool_decide; [|exact H].
  apply saveState_inStep. exact H.
Qed.

(** With disk and memory in step, one attempt keeps them in step and
    either leaves the ledger alone or adds the recipient it sent to. *)
Lemma attemptDM_ledger env s :
  inStep s →
  inStep (snd (attemptDM env s))
  ∧ match fst (attemptDM env s) with
    | Ran (Sent id) =>
        truthyAt (sentDMs s) id = false
        ∧ sentDMs (snd (attemptDM env s)) = <[id := sentAt env]> (sentDMs s)
    | _ => sentDMs (snd (attemptDM env s)) = sentDMs s
    end.
Proof.
  intros Hin. unfold attemptDM, attemptDM_gate. cbn [fst snd].
  pose proof (resetDaily_inStep (today env) s Hin) as H1.
  destruct (resetDaily_frame (today env) s) as (_ & Hs & _ & _).
  set (s1 := resetDailyCounterIfNeeded (today env) s) in *.
  destruct (quotaGate _ _ _ _); cbn [fst snd]; [auto|].
  rewrite try_is_campaign. unfold startDMCampaign.
  destruct H1 as (Hw & Hd & Hf).
  unfold loadSentDMs. rewrite Hf. cbn [existsSync readJson].
  pose proof (findAndSendDM_cases (targets env) (pick env) (gen env) (dm env)
                (sentAt env) (sentDMs s1) (disk s1)) as Hc. cbv zeta in Hc.
  destruct (findAndSendDM _ _ _ _ _ _ _) as [e [m d]]. cbn [fst snd] in *.
  assert (Hrec : ∀ m' d', writable d' = true → dirExists d' = true →
                          sentFile d' = Holds m' →
                          inStep (recordDM (doneAt env) (withLedger m' d' s1))
                          ∧ sentDMs (recordDM (doneAt env) (withLedger m' d' s1)) = m').
  { intros m' d' Hw' Hd' Hf'. split; [|reflexivity].
    unfold recordDM. apply saveState_inStep. repeat split; assumption. }
  destruct e;
    try (injection Hc as -> ->; destruct (Hrec (sentDMs s1) (disk s1) Hw Hd Hf)
           as [Hi Hm]; split; [exact Hi | rewrite Hm; exact Hs]).
  destruct Hc as [Htr Hc]. injection Hc as -> ->.
  destruct (Hrec (<[id := sentAt env]> (sentDMs s1))
              (saveSentDMs (<[id := sentAt env]> (sentDMs s1)) (disk s1)))
    as [Hi Hm].
  - unfold saveSentDMs, writeSent. rewrite Hw, Hd. reflexivity.
  - unfold saveSentDMs, writeSent. rewrite Hw, Hd. reflexivity.
  - apply saveSentDMs_writes; assumption.
  - split; [exact Hi|]. rewrite Hm, <- Hs. auto.
Qed.

Lemma truthyAt_insert (m : gmap string Z) id t k :
  t ≠ 0 → truthyAt m k = true → truthyAt (<[id := t]> m) k = true.
Proof.
  unfold truthyAt. intros Ht H.
  destruct (decide (id = k)) as [->|Hne].
  - rewrite lookup_insert_eq. apply negb_true_iff, Z.eqb_neq. exact Ht.
  - rewrite lookup_insert_ne by exact Hne. exact H.
Qed.

Lemma truthyAt_insert_eq (m : gmap string Z) id t :
  t ≠ 0 → truthyAt (<[id := t]> m) id = true.
Proof.
  unfold truthyAt. intros Ht. rewrite lookup_insert_eq.
  apply negb_true_iff, Z.eqb_neq. exact Ht.
Qed.

(** Over a run with disk and memory in step: recipients are new and
    distinct, and truthy entries stay. *)
Lemma attempts_recipients envs : ∀ s,
  inStep s → Forall (λ env, sentAt env ≠ 0) envs →
  NoDup (recipients (fst (attempts envs s)))
  ∧ (∀ id, id ∈ recipients (fst (attempts envs s)) → truthyAt (sentDMs s) id = false)
  ∧ (∀ k, truthyAt (sentDMs s) k = true →
          truthyAt (sentDMs (snd (attempts envs s))) k = true)
  ∧ inStep (snd (attempts envs s)).
Proof.
  induction envs as [|env envs IH]; intros s Hin Hall.
  - cbn. split; [constructor|]. split; [intros id H; inversion H|]. auto.
  - inversion Hall as [|? ? Hne Hrest]; subst.
    rewrite attempts_cons. cbn [fst snd].
    destruct (attemptDM_ledger env s Hin) as [Hin1 Hled].
    destruct (IH (snd (attemptDM env s)) Hin1 Hrest) as (Hnd & Hnew & Hkeep & Hin2).
    unfold recipients in *. cbn [omap list_omap].
    destruct (fst (attemptDM env s)) as [g|e] eqn:Ho; cbn [sentTo].
    + rewrite Hled in *. auto.
    + destruct e; cbn [sentTo]; try (rewrite Hled in *; auto; fail).
      destruct Hled as [Htr Hm].
      split; [|split; [|split]].
      * constructor; [|exact Hnd]. intros Hel. apply Hnew in Hel.
        rewrite Hm, truthyAt_insert_eq in Hel by exact Hne. discriminate.
      * intros k Hk. apply elem_of_cons in Hk. destruct Hk as [->|Hk]; [exact Htr|].
        apply Hnew in Hk. rewrite Hm in Hk.
        destruct (truthyAt (sentDMs s) k) eqn:E; [|reflexivity].
        rewrite (truthyAt_insert _ _ _ _ Hne E) in Hk. discriminate.
      * intros k Hk. apply Hkeep. rewrite Hm. apply truthyAt_insert; assumption.
      * exact Hin2.
Qed.

End RunFacts.

(** X13.  However many attempts run one after the other, the daily count
    stays between 0 and [DMS_PER_DAY_TARGET] once it is there: an attempt
    counts a DM only after the gate found the count below the target. *)
Theorem daily_count_stays_within_target
    (envs : list Agent.Env) (s : Agent.System) :
  0 <= Agent.dailyDMs s <= Agent.DMS_PER_DAY_TARGET →
  0 <= Agent.dailyDMs (snd (Runs.attempts envs s)) <= Agent.DMS_PER_DAY_TARGET.
Proof.
  revert s. induction envs as [|env envs IH]; intros s Hb; [exact Hb|].
  rewrite attempts_cons. cbn [snd]. apply IH, attemptDM_bound, Hb.
Qed.

Lemma daily_count_stays_within_target_witness :
  0 <= Agent.dailyDMs
         (snd (Runs.attempts [Scenario.goodEnv (Scenario.t0 * 1000);
                              Scenario.capHitEnv (Scenario.t0 * 1000 + 400000)]
                 (Scenario.idle ∅ None)))
    <= Agent.DMS_PER_DAY_TARGET.
Proof.
  apply (daily_count_stays_within_target _ (Scenario.idle ∅ None)).
  vm_compute. split; discriminate.
Defined.

(** X14.  Campaigns that run one after the other are at least
    [DM_INTERVAL] apart: if an attempt ran its campaign, and after any
    number of attempts stopped at the gate another one runs its campaign,
    the clock read by the later one is at least [DM_INTERVAL] past the
    [Date.now()] the earlier one stored in [lastDMTime]. *)
Theorem campaigns_are_spaced
    (env1 env2 : Agent.Env) (between : list Agent.Env) (s : Agent.System)
    (e1 e2 : DmManager.Exit) :
  fst (Agent.attemptDM env1 s) = Agent.Ran e1 →
  Forall Runs.isGate (fst (Runs.attempts between (snd (Agent.attemptDM env1 s)))) →
  fst (Agent.attemptDM env2
         (snd (Runs.attempts between (snd (Agent.attemptDM env1 s)))))
  = Agent.Ran e2 →
  Agent.doneAt env1 + Agent.DM_INTERVAL <= Agent.now env2.
Proof.
  intros H1 Hmid H2.
  pose proof (attemptDM_counters env1 s) as Hc1. cbv zeta in Hc1.
  rewrite H1 in Hc1. destruct Hc1 as (_ & _ & _ & Hlast).
  set (s1 := snd (Agent.attemptDM env1 s)) in *.
  assert (Hkeep : ∀ envs x, Forall Runs.isGate (fst (Runs.attempts envs x)) →
                            Agent.lastDMTime (snd (Runs.attempts envs x))
                            = Agent.lastDMTime x).
  { induction envs as [|env envs IH]; intros x Hx; [reflexivity|].
    rewrite attempts_cons in Hx |- *. cbn [fst snd] in *.
    inversion Hx as [|? ? Hg Hrest]; subst.
    rewrite IH by exact Hrest.
    pose proof (attemptDM_counters env x) as Hc. cbv zeta in Hc.
    destruct (fst (Agent.attemptDM env x)); [|contradiction].
    rewrite Hc. apply resetDaily_frame. }
  pose proof (attemptDM_counters env2 (snd (Runs.attempts between s1))) as Hc2.
  cbv zeta in Hc2. rewrite H2 in Hc2. destruct Hc2 as (Hsp & _).
  rewrite (Hkeep between s1 Hmid), Hlast in Hsp. lia.
Qed.

Lemma campaigns_are_spaced_witness :
  Agent.doneAt (Scenario.goodEnv (Scenario.t0 * 1000)) + Agent.DM_INTERVAL
  <= Agent.now (Scenario.capHitEnv (Scenario.t0 * 1000 + 400000)).
Proof.
  apply (campaigns_are_spaced (Scenario.goodEnv (Scenario.t0 * 1000))
           (Scenario.capHitEnv (Scenario.t0 * 1000 + 400000))
           [Scenario.goodEnv (Scenario.t0 * 1000 + 100000)]
           (Scenario.idle ∅ None)
           (DmManager.Sent "42") (DmManager.AlreadySent "42")).
  - vm_compute. reflexivity.
  - vm_compute. repeat constructor.
  - vm_compute. reflexivity.
Defined.

(** X15.  When the gate answers 'too soon' and the clock is not behind
    [lastDMTime], the minutes it logs are between 0 and 5, and the clock
    is indeed short of [lastDMTime + DM_INTERVAL]. *)
Theorem too_soon_minutes_are_bounded
    (env : Agent.Env) (s : Agent.System) (minutes : Z) :
  fst (Agent.attemptDM_gate env s) = Some (Agent.TooSoon minutes) →
  Agent.lastDMTime s <= Agent.now env →
  0 <= minutes <= 5
  ∧ Agent.now env < Agent.lastDMTime s + Agent.DM_INTERVAL.
Proof.
  unfold Agent.attemptDM_gate, Agent.quotaGate. cbn [fst].
  destruct (_ <? _) eqn:E; [|destruct (_ <=? _); discriminate].
  apply Z.ltb_lt in E. intros H Hle. injection H as <-.
  unfold roundDiv, Agent.DM_INTERVAL in *.
  split; [|lia]. split.
  - apply Z.div_pos; lia.
  - apply Z.lt_succ_r. apply Z.div_lt_upper_bound; lia.
Qed.

Lemma too_soon_minutes_are_bounded_witness :
  0 <= 4 <= 5
  ∧ Agent.now (Scenario.goodEnv (Scenario.t0 * 1000))
    < Agent.lastDMTime (Scenario.justSent ∅) + Agent.DM_INTERVAL.
Proof.
  apply (too_soon_minutes_are_bounded (Scenario.goodEnv (Scenario.t0 * 1000))
           (Scenario.justSent ∅) 4).
  - vm_compute. reflexivity.
  - vm_compute. discriminate.
Defined.

(** X16.  Run one after the other on a disk that takes writes, with
    sent_dms.json in step with memory and clocks that never read 0,
    attempts never send to the same recipient twice, and never to one who
    already had a truthy ledger entry. *)
Theorem sequential_attempts_never_repeat_a_recipient
    (envs : list Agent.Env) (s : Agent.System) :
  Runs.inStep s →
  Forall (λ env, Agent.sentAt env ≠ 0) envs →
  NoDup (Runs.recipients (fst (Runs.attempts envs s)))
  ∧ ∀ id, id ∈ Runs.recipients (fst (Runs.attempts envs s)) →
          truthyAt (Agent.sentDMs s) id = false.
Proof.
  intros Hin Hall.
  destruct (attempts_recipients envs s Hin Hall) as (H1 & H2 & _). auto.
Qed.

Lemma sequential_attempts_never_repeat_a_recipient_witness :
  NoDup (Runs.recipients
           (fst (Runs.attempts [Scenario.goodEnv (Scenario.t0 * 1000);
                                Scenario.goodEnv (Scenario.t0 * 1000 + 400000)]
                   (Scenario.idle ∅ None)))).
Proof.
  apply (sequential_attempts_never_repeat_a_recipient
           [Scenario.goodEnv (Scenario.t0 * 1000);
            Scenario.goodEnv (Scenario.t0 * 1000 + 400000)]
           (Scenario.idle ∅ None)).
  - vm_compute. repeat split; reflexivity.
  - repeat constructor; vm_compute; discriminate.
Defined.

(** X17.  No eviction: under the same conditions a recipient with a
    truthy ledger entry still has one after any number of attempts, and
    disk and memory are still in step. *)
Theorem contacted_recipients_stay_in_the_ledger
    (envs : list Agent.Env) (s : Agent.System) (id : string) :
  Runs.inStep s →
  Forall (λ env, Agent.sentAt env ≠ 0) envs →
  truthyAt (Agent.sentDMs s) id = true →
  truthyAt (Agent.sentDMs (snd (Runs.attempts envs s))) id = true
  ∧ Runs.inStep (snd (Runs.attempts envs s)).
Proof.
  intros Hin Hall Htr.
  destruct (attempts_recipients envs s Hin Hall) as (_ & _ & H3 & H4). auto.
Qed.

Lemma contacted_recipients_stay_in_the_ledger_witness :
  truthyAt
    (Agent.sentDMs
       (snd (Runs.attempts [Scenario.goodEnv (Scenario.t0 * 1000)]
               (Scenario.idle {["7" := 1699999000000]} None))))
    "7" = true.
Proof.
  apply (contacted_recipients_stay_in_the_ledger
           [Scenario.goodEnv (Scenario.t0 * 1000)]
           (Scenario.idle {["7" := 1699999000000]} None) "7").
  - vm_compute. repeat split; reflexivity.
  - repeat constructor; vm_compute; discriminate.
  - vm_compute. reflexivity.
Defined.

(** X18.  The status page and unknown paths change nothing.  For '/'
    the answer is 200 with today's count; the 'next DM in' figure is
    never negative and is 0 as soon as the spacing check would pass; any
    path other than '/', '/send-dm' and '/reset' is answered 404. *)
Theorem status_page_is_read_only (url : string) (env : Agent.Env) (s : Agent.System) :
  url ≠ "/send-dm" → url ≠ "/reset" →
  snd (Agent.server url env s) = s
  ∧ (url = "/" →
     ∃ since until,
       fst (Agent.server url env s)
       = {| Agent.statusCode := 200;
            Agent.body := Agent.StatusPage (Agent.dailyDMs s) since until |}
       ∧ 0 <= until
       ∧ (Agent.DM_INTERVAL <= Agent.now2 env - Agent.lastDMTime s → until = 0))
  ∧ (url ≠ "/" →
     fst (Agent.server url env s)
     = {| Agent.statusCode := 404; Agent.body := Agent.NotFound |}).
Proof.
  intros H1 H2. unfold Agent.server.
  case_bool_decide as Hroot.
  - split; [reflexivity|]. split; [|intros Hn; contradiction].
    intros _. unfold Agent.statusPage. eexists _, _. split; [reflexivity|].
    split; [apply Z.le_max_l|].
    intros Hsp. apply Z.max_l. unfold roundDiv.
    apply Z.lt_succ_r. apply Z.div_lt_upper_bound; lia.
  - rewrite !bool_decide_eq_false_2 by assumption.
    split; [reflexivity|]. split; [intros Hn; contradiction | reflexivity].
Qed.

Lemma status_page_is_read_only_witness :
  snd (Agent.server "/" (Scenario.goodEnv (Scenario.t0 * 1000)) (Scenario.justSent ∅))
  = Scenario.justSent ∅.
Proof.
  apply (status_page_is_read_only "/" (Scenario.goodEnv (Scenario.t0 * 1000))
           (Scenario.justSent ∅)); discriminate.
Defined.

(** ** The comment and mention campaigns *)

Section CampaignFacts.
Import Campaign.

Lemma save_vars s :
  sentDMs (saveSentDMs s) = sentDMs s
  ∧ dailyDMs (saveSentDMs s) = dailyDMs s
  ∧ lastDMResetDate (saveSentDMs s) = lastDMResetDate s.
Proof. unfold saveSentDMs. destruct (_ && _); cbn; auto. Qed.

Lemma setAdd_spec a set :
  NoDup set →
  NoDup (setAdd a set)
  ∧ (∀ x, x ∈ setAdd a set ↔ x = a ∨ x ∈ set)
  ∧ (length set ≤ length (setAdd a set) ≤ S (length set))%nat.
Proof.
  intros Hnd. unfold setAdd. case_bool_decide as Hin.
  - split; [exact Hnd|]. split; [|lia].
    intros x. split; [auto|]. intros [->|H]; assumption.
  - split; [|split].
    + apply NoDup_app. split; [exact Hnd|]. split; [|apply NoDup_singleton].
      intros x Hx Hx'. apply list_elem_of_singleton in Hx'. subst. contradiction.
    + intros x. rewrite elem_of_app, list_elem_of_singleton. tauto.
    + rewrite length_app. cbn. lia.
Qed.

(** What the collecting loop keeps: a set, never more than [limit] new
    entries, every new entry the author of a reply, not yet contacted and
    not the account itself. *)
Lemma collect_spec limit self ledger replies : ∀ acc,
  NoDup acc →
  NoDup (collect limit self ledger replies acc)
  ∧ (length (collect limit self ledger replies acc) ≤ Nat.max limit (length acc))%nat
  ∧ ∀ a, a ∈ collect limit self ledger replies acc →
         a ∈ acc
         ∨ (truthyAt ledger a = false ∧ self ≠ Some a ∧ a ≠ ""
            ∧ ∃ r, r ∈ replies ∧ author_id r = Some a).
Proof.
  induction replies as [|reply rest IH]; intros acc Hnd.
  - cbn. split; [exact Hnd|]. split; [lia|auto].
  - cbn [collect].
    destruct (author_id reply) as [a|] eqn:Ha.
    + destruct (negb (bool_decide (a = "")) && (length acc <? limit)%nat) eqn:Hguard.
      * apply andb_true_iff in Hguard. destruct Hguard as [Hne Hlt].
        apply negb_true_iff, bool_decide_eq_false in Hne.
        apply Nat.ltb_lt in Hlt.
        destruct (negb (truthyAt ledger a) && negb (bool_decide (self = Some a)))
          eqn:Hnew.
        -- apply andb_true_iff in Hnew. destruct Hnew as [Htr Hself].
           apply negb_true_iff in Htr.
           apply negb_true_iff, bool_decide_eq_false in Hself.
           destruct (setAdd_spec a acc Hnd) as (Hnd' & Hmem & Hlen).
           destruct (IH (setAdd a acc) Hnd') as (H1 & H2 & H3).
           split; [exact H1|]. split; [lia|].
           intros x Hx. destruct (H3 x Hx) as [Hin|(P1 & P2 & P3 & r & Hr & Hra)].
           ++ apply Hmem in Hin. destruct Hin as [->|Hin]; [|auto].
              right. repeat split; auto. exists reply. split; [left|exact Ha].
           ++ right. repeat split; auto. exists r. split; [right; exact Hr|exact Hra].
        -- destruct (IH acc Hnd) as (H1 & H2 & H3).
           split; [exact H1|]. split; [exact H2|].
           intros x Hx. destruct (H3 x Hx) as [Hin|(P1 & P2 & P3 & r & Hr & Hra)];
             [auto|]. right. repeat split; auto. exists r. split; [right; exact Hr|exact Hra].
      * destruct (IH acc Hnd) as (H1 & H2 & H3).
        split; [exact H1|]. split; [exact H2|].
        intros x Hx. destruct (H3 x Hx) as [Hin|(P1 & P2 & P3 & r & Hr & Hra)];
          [auto|]. right. repeat split; auto. exists r. split; [right; exact Hr|exact Hra].
    + destruct (IH acc Hnd) as (H1 & H2 & H3).
      split; [exact H1|]. split; [exact H2|].
      intros x Hx. destruct (H3 x Hx) as [Hin|(P1 & P2 & P3 & r & Hr & Hra)];
        [auto|]. right. repeat split; auto. exists r. split; [right; exact Hr|exact Hra].
Qed.

(** What the sending loop does, for any batch. *)
Lemma sendLoop_spec send commenters : ∀ s,
  let r := sendLoop send commenters s in
  fst r `sublist_of` commenters
  ∧ Forall (λ id, ∃ t, send id = SendOk t) (fst r)
  ∧ dailyDMs (snd r) = dailyDMs s + Z.of_nat (length (fst r))
  ∧ (dailyDMs s <= MAX_DMS_PER_DAY → dailyDMs (snd r) <= MAX_DMS_PER_DAY)
  ∧ lastDMResetDate (snd r) = lastDMResetDate s
  ∧ (∀ k, k ∉ fst r → sentDMs (snd r) !! k = sentDMs s !! k)
  ∧ (NoDup commenters →
     ∀ k, k ∈ fst r → ∃ t, send k = SendOk t ∧ sentDMs (snd r) !! k = Some t).
Proof.
  induction commenters as [|userId rest IH]; intros s; cbv zeta.
  - cbn. split; [constructor|]. split; [constructor|].
    split; [lia|]. split; [auto|]. split; [reflexivity|].
    split; [auto|]. intros _ k Hk. inversion Hk.
  - cbn [sendLoop].
    destruct (MAX_DMS_PER_DAY <=? dailyDMs s) eqn:Hcap.
    + cbn. split; [apply sublist_nil_l|]. split; [constructor|].
      split; [lia|]. split; [auto|]. split; [reflexivity|].
      split; [auto|]. intros _ k Hk. inversion Hk.
    + apply Z.leb_gt in Hcap.
      destruct (send userId) as [t|] eqn:Hsend.
      * set (s1 := saveSentDMs _).
        specialize (IH s1). cbv zeta in IH.
        destruct (sendLoop send rest s1) as [sent s2]. cbn [fst snd] in *.
        destruct IH as (I1 & I2 & I3 & I4 & I5 & I6 & I7).
        destruct (save_vars {| sentDMs := <[userId := t]> (sentDMs s);
                               dailyDMs := dailyDMs s + 1;
                               lastDMResetDate := lastDMResetDate s;
                               store := store s |}) as (V1 & V2 & V3).
        fold s1 in V1, V2, V3. cbn in V1, V2, V3.
        split; [apply sublist_skip; exact I1|].
        split; [constructor; [eauto|exact I2]|].
        split; [rewrite I3, V2; cbn [length]; lia|].
        split; [intros _; apply I4; rewrite V2; lia|].
        split; [rewrite I5; exact V3|].
        split.
        -- intros k Hk. apply not_elem_of_cons in Hk. destruct Hk as [Hne Hk].
           rewrite (I6 k Hk), V1. apply lookup_insert_ne. congruence.
        -- intros Hnd k Hk. apply NoDup_cons in Hnd. destruct Hnd as [Hni Hnd].
           apply elem_of_cons in Hk. destruct Hk as [->|Hk].
           ++ exists t. split; [exact Hsend|].
              rewrite I6, V1; [apply lookup_insert_eq|].
              intros Hin. apply Hni. eapply elem_of_sublist; eauto.
           ++ apply I7; assumption.
      * specialize (IH s). cbv zeta in IH.
        destruct (sendLoop send rest s) as [sent s2]. cbn [fst snd] in *.
        destruct IH as (I1 & I2 & I3 & I4 & I5 & I6 & I7).
        split; [apply sublist_cons; exact I1|].
        split; [exact I2|]. split; [exact I3|]. split; [exact I4|].
        split; [exact I5|]. split; [exact I6|].
        intros Hnd. apply NoDup_cons in Hnd. apply I7, Hnd.
Qed.

Lemma resetDailyDMs_vars today s :
  sentDMs (resetDailyDMsIfNeeded today s) = sentDMs s
  ∧ dailyDMs (resetDailyDMsIfNeeded today s)
    = (if bool_decide (lastDMResetDate s ≠ today) then 0 else dailyDMs s)
  ∧ lastDMResetDate (resetDailyDMsIfNeeded today s) = today.
Proof.
  unfold resetDailyDMsIfNeeded. case_bool_decide as H.
  - destruct (save_vars {| sentDMs := sentDMs s; dailyDMs := 0;
                           lastDMResetDate := today; store := store s |})
      as (V1 & V2 & V3). rewrite V1, V2, V3. auto.
  - split; [reflexivity|]. split; [reflexivity|].
    destruct (decide (lastDMResetDate s = today)); congruence.
Qed.

End CampaignFacts.

Section CampaignRuns.
Import Campaign.

(** A comment-campaign run, whatever it is given: it ends before its
    loops, in the state the daily roll left. *)
Lemma commenters_exit env s :
  let s1 := resetDailyDMsIfNeeded (today env) s in
  snd (findAndDMCommenters env s) = s1
  ∧ (fst (findAndDMCommenters env s) = LimitReached
     ∧ MAX_DMS_PER_DAY <= dailyDMs s1
     ∨ dailyDMs s1 < MAX_DMS_PER_DAY
       ∧ (fst (findAndDMCommenters env s) = NoTargets
          ∨ fst (findAndDMCommenters env s) = NoTweets
          ∨ fst (findAndDMCommenters env s) = CampaignError)).
Proof.
  cbv zeta. unfold findAndDMCommenters.
  set (s1 := resetDailyDMsIfNeeded (today env) s).
  destruct (MAX_DMS_PER_DAY <=? dailyDMs s1) eqn:Hcap.
  - apply Z.leb_le in Hcap. cbn. auto.
  - apply Z.leb_gt in Hcap. unfold findAndDMCommenters_try.
    destruct (if existsSync (accounts env) then readJson (accounts env)
              else Returned []) as [targetAccounts|]; [|cbn; auto 6].
    case_bool_decide; [cbn; auto 6|].
    destruct (tweets env) as [|[inner|]]; cbn; auto 6.
Qed.

Lemma mentioners_completed env s sent s' :
  findAndDMMentioners env s = (Completed sent, s') →
  let s1 := resetDailyDMsIfNeeded (m_today env) s in
  dailyDMs s1 < MAX_DMS_PER_DAY
  ∧ ∃ userId mentionsArray,
      m_user env = ReadData (Some userId)
      ∧ m_mentions env = ReadData (Some mentionsArray)
      ∧ sendLoop (m_send env)
          (collect 1 (Some userId) (sentDMs s1) mentionsArray []) s1
        = (sent, s').
Proof.
  unfold findAndDMMentioners. cbv zeta.
  set (s1 := resetDailyDMsIfNeeded (m_today env) s).
  destruct (MAX_DMS_PER_DAY <=? dailyDMs s1) eqn:Hcap; [discriminate|].
  apply Z.leb_gt in Hcap. unfold findAndDMMentioners_try.
  destruct (if existsSync (m_accounts env) then readJson (m_accounts env)
            else Returned []) as [targetAccounts|]; [|discriminate].
  case_bool_decide; [discriminate|].
  destruct (m_user env) as [|[userId|]]; try discriminate.
  destruct (m_mentions env) as [|[[|mt mentionsArray]|]]; try discriminate.
  destruct (sendLoop _ _ _) as [sent0 s0] eqn:Hloop.
  intros Heq. injection Heq as <- <-. split; [exact Hcap|].
  exists userId, (mt :: mentionsArray). auto.
Qed.

(** The part both campaigns share, once the batch is collected. *)
Lemma batch_spec limit self send (repliesData : list Tweet) s1 sent s' :
  sendLoop send (collect limit self (sentDMs s1) repliesData []) s1 = (sent, s') →
  (length sent ≤ limit)%nat
  ∧ NoDup sent
  ∧ (∀ k, k ∈ sent →
          truthyAt (sentDMs s1) k = false ∧ self ≠ Some k
          ∧ (∃ r, r ∈ repliesData ∧ author_id r = Some k)
          ∧ ∃ t, send k = SendOk t ∧ sentDMs s' !! k = Some t)
  ∧ (∀ k, k ∉ sent → sentDMs s' !! k = sentDMs s1 !! k)
  ∧ dailyDMs s' = dailyDMs s1 + Z.of_nat (length sent).
Proof.
  intros Hloop.
  destruct (collect_spec limit self (sentDMs s1) repliesData [] (NoDup_nil_2))
    as (Hnd & Hlen & Hnew).
  pose proof (sendLoop_spec send (collect limit self (sentDMs s1) repliesData []) s1)
    as Hs. cbv zeta in Hs. rewrite Hloop in Hs. cbn [fst snd] in Hs.
  destruct Hs as (Hsub & _ & Hcount & _ & _ & Hother & Hrec).
  split; [apply sublist_length in Hsub; cbn in Hlen; lia|].
  split; [eapply sublist_NoDup; eauto|].
  split; [|split; [exact Hother|exact Hcount]].
  intros k Hk.
  destruct (Hnew k (elem_of_sublist _ _ _ Hk Hsub))
    as [Hnil|(P1 & P2 & _ & P4)]; [inversion Hnil|].
  auto using Hrec.
Qed.

End CampaignRuns.

(** X19.  The batch the collecting loop builds is a set of at most
    [limit] recipients; each is the non-empty author id of one of the
    replies, has no truthy ledger entry, and is not the account whose
    mentions are read. *)
Theorem collected_batch_is_new_and_small
    (limit : nat) (self : option string) (ledger : gmap string Z)
    (replies : list Campaign.Tweet) :
  let batch := Campaign.collect limit self ledger replies [] in
  NoDup batch
  ∧ (length batch ≤ limit)%nat
  ∧ ∀ a, a ∈ batch →
         truthyAt ledger a = false ∧ self ≠ Some a ∧ a ≠ ""
         ∧ ∃ r, r ∈ replies ∧ Campaign.author_id r = Some a.
Proof.
  cbv zeta.
  destruct (collect_spec limit self ledger replies [] (NoDup_nil_2))
    as (Hnd & Hlen & Hnew).
  split; [exact Hnd|]. split; [cbn in Hlen; lia|].
  intros a Ha. destruct (Hnew a Ha) as [Hnil|H]; [inversion Hnil|exact H].
Qed.

Lemma collected_batch_is_new_and_small_witness :
  truthyAt ({["2" := 1699999000000]} : gmap string Z) "1" = false.
Proof.
  destruct (collected_batch_is_new_and_small 5 None {["2" := 1699999000000]}
              [CampaignScenario.reply "1"; CampaignScenario.reply "2"])
    as (_ & _ & Hnew).
  apply (Hnew "1"). vm_compute. left.
Defined.

(** X20.  The sending loop spends quota only on deliveries: the recipients
    it reports are a sub-sequence of the batch, each one's send resolved,
    [dailyDMs] grows by exactly their number, a rejected send costs
    nothing, and a count that starts at or below [MAX_DMS_PER_DAY] ends
    at or below it. *)
Theorem send_loop_counts_only_deliveries
    (send : string → Campaign.SendAnswer) (batch : list string)
    (s : Campaign.State) :
  let r := Campaign.sendLoop send batch s in
  fst r `sublist_of` batch
  ∧ Forall (λ id, ∃ t, send id = Campaign.SendOk t) (fst r)
  ∧ Campaign.dailyDMs (snd r) = Campaign.dailyDMs s + Z.of_nat (length (fst r))
  ∧ (Campaign.dailyDMs s <= Campaign.MAX_DMS_PER_DAY →
     Campaign.dailyDMs (snd r) <= Campaign.MAX_DMS_PER_DAY)
  ∧ Campaign.lastDMResetDate (snd r) = Campaign.lastDMResetDate s.
Proof.
  pose proof (sendLoop_spec send batch s) as H. cbv zeta in *.
  destruct H as (H1 & H2 & H3 & H4 & H5 & _). auto.
Qed.

Lemma send_loop_counts_only_deliveries_witness :
  Campaign.dailyDMs
    (snd (Campaign.sendLoop (λ _, Campaign.SendRejected) ["1"; "2"]
            (Campaign.initial (Campaign.mkStore true true Missing))))
  <= Campaign.MAX_DMS_PER_DAY.
Proof.
  apply (send_loop_counts_only_deliveries (λ _, Campaign.SendRejected) ["1"; "2"]
           (Campaign.initial (Campaign.mkStore true true Missing))).
  vm_compute. discriminate.
Defined.

(** X21.  After the sending loop over a batch without repeats, the
    ledger holds, for every recipient that was sent a DM, the time read
    right after that send; every other entry is as it was. *)
Theorem send_loop_records_each_delivery
    (send : string → Campaign.SendAnswer) (batch : list string)
    (s : Campaign.State) :
  NoDup batch →
  let r := Campaign.sendLoop send batch s in
  (∀ k, k ∈ fst r →
        ∃ t, send k = Campaign.SendOk t ∧ Campaign.sentDMs (snd r) !! k = Some t)
  ∧ ∀ k, k ∉ fst r → Campaign.sentDMs (snd r) !! k = Campaign.sentDMs s !! k.
Proof.
  intros Hnd. pose proof (sendLoop_spec send batch s) as H. cbv zeta in *.
  destruct H as (_ & _ & _ & _ & _ & H6 & H7). auto.
Qed.

Lemma send_loop_records_each_delivery_witness :
  Campaign.sentDMs
    (snd (Campaign.sendLoop (λ _, Campaign.SendOk 1700000002000) ["1"; "2"]
            (Campaign.initial (Campaign.mkStore true true Missing)))) !! "3"
  = Campaign.sentDMs (Campaign.initial (Campaign.mkStore true true Missing)) !! "3".
Proof.
  assert (Hnd : NoDup ["1"; "2"]).
  { apply NoDup_cons_2; [|apply NoDup_singleton].
    intros Hin. apply list_elem_of_singleton in Hin. discriminate Hin. }
  destruct (send_loop_records_each_delivery (λ _, Campaign.SendOk 1700000002000)
              ["1"; "2"] (Campaign.initial (Campaign.mkStore true true Missing)) Hnd)
    as [_ Hother].
  apply (Hother "3"). intros Hin. vm_compute in Hin.
  repeat (apply elem_of_cons in Hin; destruct Hin as [Hin|Hin]; [discriminate Hin|]).
  inversion Hin.
Defined.

(** X22.  The comment campaign never gets to send.  The [data] of the
    search answer is the raw body, so the picked tweet is [undefined]
    and reading [randomTweet.id] throws: a run of [findAndDMCommenters]
    never ends [Completed], leaves the state as the daily roll left it,
    and, once there are targets, the limit is not reached and the search
    resolved with a body, ends in 'Error in DM campaign'. *)
Theorem comment_campaign_never_sends (env : Campaign.Env) (s : Campaign.State) :
  let r := Campaign.findAndDMCommenters env s in
  let s1 := Campaign.resetDailyDMsIfNeeded (Campaign.today env) s in
  (∀ sent, fst r ≠ Campaign.Completed sent)
  ∧ snd r = s1
  ∧ Campaign.sentDMs (snd r) = Campaign.sentDMs s
  ∧ (Campaign.dailyDMs s1 < Campaign.MAX_DMS_PER_DAY →
     ∀ targetAccounts body,
       Campaign.accounts env = Holds targetAccounts → targetAccounts ≠ [] →
       Campaign.tweets env = Campaign.ReadData (Some body) →
       fst r = Campaign.CampaignError).
Proof.
  cbv zeta. destruct (commenters_exit env s) as [Hs Hexit]. cbv zeta in Hs, Hexit.
  split; [|split; [exact Hs|split]].
  - intros sent Heq.
    destruct Hexit as [[H _]|[_ [H|[H|H]]]]; rewrite H in Heq; discriminate.
  - rewrite Hs. apply resetDailyDMs_vars.
  - intros Hcap targetAccounts body Ha Hne Ht.
    unfold Campaign.findAndDMCommenters.
    rewrite (proj2 (Z.leb_gt _ _) Hcap).
    unfold Campaign.findAndDMCommenters_try. rewrite Ha, Ht. cbn.
    rewrite bool_decide_eq_false_2 by exact Hne. reflexivity.
Qed.

Lemma comment_campaign_never_sends_witness :
  fst (Campaign.findAndDMCommenters CampaignScenario.commentEnv CampaignScenario.fresh)
  = Campaign.CampaignError.
Proof.
  destruct (comment_campaign_never_sends CampaignScenario.commentEnv
              CampaignScenario.fresh) as (_ & _ & _ & H).
  apply (H ltac:(vm_compute; reflexivity) ["catharsis"]
           (Some [{| Campaign.id := "1700"; Campaign.author_id := Some "9" |}])).
  - reflexivity.
  - discriminate.
  - reflexivity.
Defined.

(** X23.  One run of the mention campaign that reaches its loops sends at
    most one DM, never to the account whose mentions it read, and only
    to the author of one of the fetched mentions with no truthy ledger
    entry. *)
Theorem mention_campaign_batch
    (env : Campaign.MentionEnv) (s s' : Campaign.State) (sent : list string) :
  Campaign.findAndDMMentioners env s = (Campaign.Completed sent, s') →
  (length sent ≤ 1)%nat
  ∧ ∀ k, k ∈ sent →
         Campaign.m_user env ≠ Campaign.ReadData (Some k)
         ∧ truthyAt (Campaign.sentDMs s) k = false
         ∧ (∃ mentions r, Campaign.m_mentions env = Campaign.ReadData (Some mentions)
                          ∧ r ∈ mentions ∧ Campaign.author_id r = Some k)
         ∧ ∃ t, Campaign.m_send env k = Campaign.SendOk t
                ∧ Campaign.sentDMs s' !! k = Some t.
Proof.
  intros H. destruct (mentioners_completed env s sent s' H)
    as (_ & userId & mentionsArray & Hu & Hmn & Hloop).
  destruct (resetDailyDMs_vars (Campaign.m_today env) s) as (Hm & _ & _).
  destruct (batch_spec 1 (Some userId) _ _ _ _ _ Hloop) as (B1 & _ & B3 & _).
  rewrite Hm in B3. split; [exact B1|].
  intros k Hk. destruct (B3 k Hk) as (P1 & P2 & (r & Hr & Hra) & P4).
  split; [rewrite Hu; congruence|]. split; [exact P1|].
  split; [exists mentionsArray, r; auto | exact P4].
Qed.

Lemma mention_campaign_batch_witness :
  (length ["3"] ≤ 1)%nat.
Proof.
  apply (mention_campaign_batch CampaignScenario.mentionEnv CampaignScenario.fresh
           (snd (Campaign.findAndDMMentioners CampaignScenario.mentionEnv
                   CampaignScenario.fresh))
           ["3"]).
  vm_compute. reflexivity.
Defined.

(** X24.  A campaign run that does not reach its loops changes nothing
    beyond the daily roll, whether it stopped for the limit, for want of
    targets, tweets or replies, or on an error of a read; and it stops
    for the limit exactly when the rolled count has reached
    [MAX_DMS_PER_DAY], before any file or API answer is looked at. *)
Theorem campaign_without_loops_changes_nothing
    (env : Campaign.Env) (s : Campaign.State) :
  let r := Campaign.findAndDMCommenters env s in
  let s1 := Campaign.resetDailyDMsIfNeeded (Campaign.today env) s in
  match fst r with
  | Campaign.Completed _ => True
  | _ => snd r = s1
  end
  ∧ (fst r = Campaign.LimitReached ↔ Campaign.MAX_DMS_PER_DAY <= Campaign.dailyDMs s1).
Proof.
  cbv zeta. destruct (commenters_exit env s) as [Hs Hexit]. cbv zeta in Hs, Hexit.
  split.
  - destruct (fst (Campaign.findAndDMCommenters env s)); auto.
  - destruct Hexit as [[H Hcap]|[Hcap [H|[H|H]]]]; rewrite H;
      (split; [intros Heq; try discriminate Heq; exact Hcap | intros Hle]);
      try reflexivity; lia.
Qed.

Lemma campaign_without_loops_changes_nothing_witness :
  fst (Campaign.findAndDMCommenters CampaignScenario.commentEnv CampaignScenario.spent)
  = Campaign.LimitReached.
Proof.
  apply (campaign_without_loops_changes_nothing CampaignScenario.commentEnv
           CampaignScenario.spent).
  vm_compute. discriminate.
Defined.

(** X25.  The campaign's file round-trips and fails soft.  What
    [saveSentDMs] wrote on a disk that takes writes, a fresh process
    loads back: ledger, daily count and reset date.  When the file is
    there but cannot be read or parsed, [loadSentDMs] empties the ledger
    and keeps count and date as they are in memory. *)
Theorem campaign_state_survives_restart (s : Campaign.State) :
  (Campaign.takes (Campaign.store s) = true →
   Campaign.dataDir (Campaign.store s) = true →
   let s' := Campaign.loadSentDMs
               (Campaign.initial (Campaign.store (Campaign.saveSentDMs s))) in
   Campaign.sentDMs s' = Campaign.sentDMs s
   ∧ Campaign.dailyDMs s' = Campaign.dailyDMs s
   ∧ Campaign.lastDMResetDate s' = Campaign.lastDMResetDate s)
  ∧ (Campaign.savedFile (Campaign.store s) = Corrupt →
     Campaign.loadSentDMs s
     = {| Campaign.sentDMs := ∅; Campaign.dailyDMs := Campaign.dailyDMs s;
          Campaign.lastDMResetDate := Campaign.lastDMResetDate s;
          Campaign.store := Campaign.store s |}).
Proof.
  split.
  - intros Ht Hd. cbv zeta.
    unfold Campaign.saveSentDMs. rewrite Ht, Hd. cbn.
    unfold Campaign.loadSentDMs, Campaign.loadSentDMs_try. cbn. auto.
  - intros Hc. unfold Campaign.loadSentDMs, Campaign.loadSentDMs_try.
    rewrite Hc. reflexivity.
Qed.

Lemma campaign_state_survives_restart_witness :
  Campaign.dailyDMs
    (Campaign.loadSentDMs
       (Campaign.initial (Campaign.store (Campaign.saveSentDMs CampaignScenario.spent))))
  = 30.
Proof.
  apply (campaign_state_survives_restart CampaignScenario.spent); reflexivity.
Defined.

(** ** More on attempts *)

(** X26.  What an attempt does to the counters depends only on the gate.
    Stopped at the gate, it leaves [lastDMTime] and the ledger alone and
    the state is the one the daily roll produced.  Past the gate, it
    always adds one to the rolled [dailyDMs] and stores its [Date.now()]
    in [lastDMTime], whichever way the campaign ended; and it got past
    the gate only at least [DM_INTERVAL] after [lastDMTime] with the
    rolled count below [DMS_PER_DAY_TARGET]. *)
Theorem every_campaign_run_is_counted (env : Agent.Env) (s : Agent.System) :
  let r := Agent.attemptDM env s in
  let s1 := Agent.resetDailyCounterIfNeeded (Agent.today env) s in
  match fst r with
  | Agent.Gate _ =>
      snd r = s1
      ∧ Agent.lastDMTime (snd r) = Agent.lastDMTime s
      ∧ Agent.sentDMs (snd r) = Agent.sentDMs s
  | Agent.Ran _ =>
      Agent.DM_INTERVAL <= Agent.now env - Agent.lastDMTime s
      ∧ Agent.dailyDMs s1 < Agent.DMS_PER_DAY_TARGET
      ∧ Agent.dailyDMs (snd r) = Agent.dailyDMs s1 + 1
      ∧ Agent.lastDMTime (snd r) = Agent.doneAt env
  end.
Proof.
  cbv zeta. pose proof (attemptDM_counters env s) as H. cbv zeta in H.
  destruct (fst (Agent.attemptDM env s)); [|exact H].
  rewrite H. destruct (resetDaily_frame (Agent.today env) s) as (H1 & H2 & _).
  auto.
Qed.

(** X27.  [handleTwitterError] only ever raises the cap: it never clears
    a flag that is set, and it leaves the daily counter, the stored date
    and the daily maximum alone; of two cap errors in a row the later
    one's reset time is the one kept. *)
Theorem handleTwitterError_only_raises
    (e e' : RateLimit.TwitterError) (h : RateLimit.Handler) :
  let h1 := snd (RateLimit.handleTwitterError e h) in
  (RateLimit.monthlyCapExceeded h = true → RateLimit.monthlyCapExceeded h1 = true)
  ∧ RateLimit.dailyReadAttempts h1 = RateLimit.dailyReadAttempts h
  ∧ RateLimit.lastResetDate h1 = RateLimit.lastResetDate h
  ∧ RateLimit.maxDailyReadAttempts h1 = RateLimit.maxDailyReadAttempts h
  ∧ (RateLimit.isMonthlyCapExceeded (RateLimit.parseTwitterError e') = true →
     snd (RateLimit.handleTwitterError e' h1)
     = snd (RateLimit.handleTwitterError e' h)).
Proof.
  cbv zeta. unfold RateLimit.handleTwitterError.
  destruct (RateLimit.isMonthlyCapExceeded (RateLimit.parseTwitterError e)).
  - destruct (validDate _); cbn [snd];
      (split; [reflexivity|]; split; [reflexivity|]; split; [reflexivity|];
       split; [reflexivity|]);
      intros ->; destruct (validDate _); reflexivity.
  - cbn [snd]. auto.
Qed.

Lemma handleTwitterError_only_raises_witness :
  RateLimit.monthlyCapExceeded
    (snd (RateLimit.handleTwitterError
            {| RateLimit.code := Some 500; RateLimit.data := None;
               RateLimit.rateLimit := None |}
            Scenario.cappedHandler))
  = true.
Proof.
  apply (handleTwitterError_only_raises
           {| RateLimit.code := Some 500; RateLimit.data := None;
              RateLimit.rateLimit := None |}
           (Scenario.capError None) Scenario.cappedHandler).
  reflexivity.
Defined.

(** X28.  A scheduler run that nothing interrupts is [attemptDM]: from a
    state with the timer due and nothing in flight, the timer event,
    followed by the network answer when the attempt had to wait, leaves
    the variables as [runScheduler] computes them, logs the outcome of
    [attemptDM], has nothing in flight and the timer due again. *)
Theorem uninterrupted_tick_is_attemptDM (env : Agent.Env) (st : EventLoop.Sched) :
  EventLoop.timerDue st = true →
  EventLoop.inflight st = [] →
  ∃ st',
    (EventLoop.run [EventLoop.TimerFires env] st = Some st'
     ∨ (EventLoop.inflight <$> EventLoop.step (EventLoop.TimerFires env) st ≠ Some []
        ∧ EventLoop.run [EventLoop.TimerFires env; EventLoop.NetworkAnswers 0 env] st
          = Some st'))
    ∧ EventLoop.sys st' = Agent.runScheduler env (EventLoop.sys st)
    ∧ EventLoop.ended st'
      = (EventLoop.ended st
         ++ [(EventLoop.Timer, fst (Agent.attemptDM env (EventLoop.sys st)))])%list
    ∧ EventLoop.inflight st' = []
    ∧ EventLoop.timerDue st' = true.
Proof.
  intros Hdue Hflight.
  unfold EventLoop.run, EventLoop.step. rewrite Hdue.
  unfold EventLoop.launch, Agent.runScheduler, Agent.attemptDM, Agent.attemptDM_try.
  cbn [EventLoop.sys EventLoop.timerDue EventLoop.inflight EventLoop.ended].
  destruct (Agent.attemptDM_gate env (EventLoop.sys st)) as [[g|] s1].
  - eexists. split; [left; reflexivity|]. cbn. rewrite Hflight. auto.
  - destruct (Agent.attemptDM_try_begin env s1) as [[e|u] s2].
    + eexists. split; [left; reflexivity|]. cbn. rewrite Hflight. auto.
    + rewrite Hflight.
      cbn [EventLoop.sys EventLoop.timerDue EventLoop.inflight EventLoop.ended
           app lookup list_lookup].
      destruct (Agent.attemptDM_resume env u s2) as [e s3].
      eexists. split; [right; split; [cbn; discriminate | reflexivity]|].
      cbn. auto.
Qed.

Lemma uninterrupted_tick_is_attemptDM_witness :
  ∃ st',
    (EventLoop.run [EventLoop.TimerFires (Scenario.goodEnv (Scenario.t0 * 1000))]
       (EventLoop.mkSched (Scenario.idle ∅ None) true [] []) = Some st'
     ∨ (EventLoop.inflight
          <$> EventLoop.step (EventLoop.TimerFires (Scenario.goodEnv (Scenario.t0 * 1000)))
                (EventLoop.mkSched (Scenario.idle ∅ None) true [] []) ≠ Some []
        ∧ EventLoop.run [EventLoop.TimerFires (Scenario.goodEnv (Scenario.t0 * 1000));
                         EventLoop.NetworkAnswers 0 (Scenario.goodEnv (Scenario.t0 * 1000))]
            (EventLoop.mkSched (Scenario.idle ∅ None) true [] []) = Some st'))
    ∧ EventLoop.sys st'
      = Agent.runScheduler (Scenario.goodEnv (Scenario.t0 * 1000)) (Scenario.idle ∅ None)
    ∧ EventLoop.ended st'
      = ([] ++ [(EventLoop.Timer,
                 fst (Agent.attemptDM (Scenario.goodEnv (Scenario.t0 * 1000))
                        (Scenario.idle ∅ None)))])%list
    ∧ EventLoop.inflight st' = []
    ∧ EventLoop.timerDue st' = true.
Proof.
  apply (uninterrupted_tick_is_attemptDM (Scenario.goodEnv (Scenario.t0 * 1000))
           (EventLoop.mkSched (Scenario.idle ∅ None) true [] []));
    reflexivity.
Defined.
